(** * DOM visibility utilities (playwright-core, server/injected/domUtils.ts)

    A shallow embedding of the shadow-DOM traversal helpers and of the
    element-visibility judgment, together with the properties stated about
    them.

    The host DOM is a store of nodes addressed by identifiers; every
    property the source reads on a node ([nodeType], [parentNode],
    [ownerDocument], ...) is a field of the record [Dom].  The source's
    [while] loops and its recursion are functions on a step budget: a
    result [None] means the budget ran out, and [Some r] that the call
    returned [r].  An [Element | undefined] value is an [option Node].

    Conventions.  Measured lengths are rationals, compared with 0 as the
    source does.  The child list [childNodes] is the sequence that
    [firstChild] and [nextSibling] enumerate.  Selectors are those the host
    accepts: the SyntaxError of [closest] on a malformed selector is
    outside the model.  The native [parentElement], [contains] and
    [closest] are not code of this file of the repository; they follow the
    DOM Standard over the [parentNode] links. *)

From Stdlib Require Import List String Bool Arith Lia ZArith QArith.
From Stdlib Require Import Relations Wellfounded.
Import ListNotations.

Local Open Scope string_scope.
Local Open Scope nat_scope.

(** ** The host DOM *)

Definition Node := nat.
Definition View := nat.

Definition ELEMENT_NODE : nat := 1.
Definition TEXT_NODE : nat := 3.
Definition DOCUMENT_NODE : nat := 9.
Definition DOCUMENT_FRAGMENT_NODE : nat := 11.

(** A DOMRect, reduced to the two fields the source reads. *)
Record DOMRect := mkRect { width : Q; height : Q }.

(** A CSSStyleDeclaration, reduced to the two properties the source reads. *)
Record CSSStyleDeclaration := mkStyle { display : string; visibility : string }.

(** What the host environment answers.  [host] is [ShadowRoot.host] (absent
    on a node that is not a shadow root); [matches n css] is selector
    matching, for selectors the host accepts; [details_open] is
    [HTMLDetailsElement.open]; [hasCheckVisibility] says whether
    [Element.prototype.checkVisibility] exists and [checkVisibility n] is
    its answer for the options the source passes; [rangeRect n] is the
    bounding rectangle of a range selecting the node [n]. *)
Record Dom := mkDom {
  nodeType : Node -> nat;
  nodeName : Node -> string;
  parentNode : Node -> option Node;
  childNodes : Node -> list Node;
  host : Node -> option Node;
  ownerDocument : Node -> option Node;
  defaultView : Node -> option View;
  getComputedStyle : View -> Node -> option string -> CSSStyleDeclaration;
  matches : Node -> string -> bool;
  details_open : Node -> bool;
  hasCheckVisibility : bool;
  checkVisibility : Node -> bool;
  getBoundingClientRect : Node -> DOMRect;
  rangeRect : Node -> DOMRect
}.

(** [x > 0] on a measured length. *)
Definition gt0 (x : Q) : bool := (0 <? Qnum x)%Z.

(** The condition of the manual details workaround:
    [a !== element && a?.nodeName === 'DETAILS' && !a.open]. *)
Definition closedDetailsAbove (d : Dom) (element : Node) (a : option Node) : bool :=
  match a with
  | None => false
  | Some x => negb (x =? element) && (nodeName d x =? "DETAILS")%string
              && negb (details_open d x)
  end.

(** The [for (child = firstChild; child; child = child.nextSibling)] loops:
    return true at the first child whose test is true, false when the
    children are exhausted. *)
Fixpoint anyChild (test : Node -> option bool) (children : list Node) : option bool :=
  match children with
  | [] => Some false
  | child :: rest =>
      match test child with
      | None => None
      | Some true => Some true
      | Some false => anyChild test rest
      end
  end.

Section DomUtils.

Variable d : Dom.

(** *** Host primitives over the parent links (DOM Standard) *)

(** [node.parentElement]: the parent when it is an element. *)
Definition parentElement (n : Node) : option Node :=
  match parentNode d n with
  | Some p => if nodeType d p =? ELEMENT_NODE then Some p else None
  | None => None
  end.

(** [scope.contains(other)]: [other] is an inclusive descendant of [scope]. *)
Fixpoint contains (fuel : nat) (scope other : Node) : option bool :=
  match fuel with
  | 0 => None
  | S fuel' =>
      if scope =? other then Some true
      else match parentNode d other with
           | Some p => contains fuel' scope p
           | None => Some false
           end
  end.

(** [element.closest(css)]: the first inclusive element ancestor that
    matches. *)
Fixpoint closest (fuel : nat) (element : Node) (css : string) : option (option Node) :=
  match fuel with
  | 0 => None
  | S fuel' =>
      if matches d element css then Some (Some element)
      else match parentElement element with
           | Some p => closest fuel' p css
           | None => Some None
           end
  end.

(** *** Shadow traversal *)

Definition parentElementOrShadowHost (element : Node) : option Node :=
  match parentElement element with
  | Some p => Some p
  | None =>
      match parentNode d element with
      | None => None
      | Some pn =>
          if nodeType d pn =? DOCUMENT_FRAGMENT_NODE then host d pn else None
      end
  end.

Fixpoint enclosingShadowRootOrDocument (fuel : nat) (node : Node) : option (option Node) :=
  match fuel with
  | 0 => None
  | S fuel' =>
      match parentNode d node with
      | Some p => enclosingShadowRootOrDocument fuel' p
      | None =>
          if (nodeType d node =? DOCUMENT_FRAGMENT_NODE) || (nodeType d node =? DOCUMENT_NODE)
          then Some (Some node) else Some None
      end
  end.

Fixpoint enclosingShadowHost (fuel : nat) (element : Node) : option (option Node) :=
  match fuel with
  | 0 => None
  | S fuel' =>
      match parentElement element with
      | Some p => enclosingShadowHost fuel' p
      | None => Some (parentElementOrShadowHost element)
      end
  end.

Fixpoint isInsideScope (fuel : nat) (scope : Node) (element : option Node) : option bool :=
  match fuel with
  | 0 => None
  | S fuel' =>
      match element with
      | None => Some false
      | Some e =>
          match contains fuel' scope e with
          | None => None
          | Some true => Some true
          | Some false =>
              match enclosingShadowHost fuel' e with
              | None => None
              | Some e' => isInsideScope fuel' scope e'
              end
          end
      end
  end.

Fixpoint closestCrossShadow (fuel : nat) (element : option Node) (css : string)
  : option (option Node) :=
  match fuel with
  | 0 => None
  | S fuel' =>
      match element with
      | None => Some None
      | Some e =>
          match closest fuel' e css with
          | None => None
          | Some (Some c) => Some (Some c)
          | Some None =>
              match enclosingShadowHost fuel' e with
              | None => None
              | Some e' => closestCrossShadow fuel' e' css
              end
          end
      end
  end.

(** *** Style accessor and style visibility *)

Definition getElementComputedStyle (element : Node) (pseudo : option string)
  : option CSSStyleDeclaration :=
  match ownerDocument d element with
  | Some doc =>
      match defaultView d doc with
      | Some view => Some (getComputedStyle d view element pseudo)
      | None => None
      end
  | None => None
  end.

Definition isElementStyleVisibilityVisible (fuel : nat) (element : Node)
  (style : option CSSStyleDeclaration) : option bool :=
  let style := match style with
               | Some s => Some s
               | None => getElementComputedStyle element None
               end in
  match style with
  | None => Some true
  | Some st =>
      if hasCheckVisibility d then
        if negb (checkVisibility d element) then Some false
        else Some (visibility st =? "visible")%string
      else
        match closest fuel element "details,summary" with
        | None => None
        | Some detailsOrSummary =>
            if closedDetailsAbove d element detailsOrSummary then Some false
            else Some (visibility st =? "visible")%string
        end
  end.

(** *** Text and element visibility *)

(** The range is created in the owner document of the text node, which a
    [Text] always has by its type; [rangeRect] is the box of that range
    once it selects the node. *)
Definition isVisibleTextNode (node : Node) : bool :=
  let rect := rangeRect d node in
  gt0 (width rect) && gt0 (height rect).

Fixpoint isElementVisible (fuel : nat) (element : Node) : option bool :=
  match fuel with
  | 0 => None
  | S fuel' =>
      match getElementComputedStyle element None with
      | None => Some true
      | Some style =>
          if (display style =? "contents")%string then
            anyChild (fun child =>
              match (if nodeType d child =? ELEMENT_NODE
                     then isElementVisible fuel' child else Some false) with
              | None => None
              | Some true => Some true
              | Some false =>
                  Some ((nodeType d child =? TEXT_NODE) && isVisibleTextNode child)
              end) (childNodes d element)
          else
            match isElementStyleVisibilityVisible fuel' element (Some style) with
            | None => None
            | Some false => Some false
            | Some true =>
                let rect := getBoundingClientRect d element in
                let visible := gt0 (width rect) && gt0 (height rect) in
                if negb visible && (display style =? "inline")%string && gt0 (height rect) then
                  anyChild (fun child =>
                    if nodeType d child =? ELEMENT_NODE then
                      match getElementComputedStyle child None with
                      | Some cs =>
                          if (display cs =? "inline")%string
                          then isElementVisible fuel' child else Some false
                      | None => Some false
                      end
                    else Some false) (childNodes d element)
                else Some visible
            end
      end
  end.

End DomUtils.

Arguments parentElement d n : simpl never.
Arguments parentElementOrShadowHost d element : simpl never.
Arguments getElementComputedStyle d element pseudo : simpl never.
Arguments isVisibleTextNode d node : simpl never.

(** ** Step budgets *)

(** [returns f r]: the call modelled by [f] returns [r] once it is given
    enough steps. *)
Definition returns {A : Type} (f : nat -> option A) (r : A) : Prop :=
  exists fuel, f fuel = Some r.

(** More steps never change a result already reached. *)
Definition monotone {A : Type} (f : nat -> option A) : Prop :=
  forall n m r, n <= m -> f n = Some r -> f m = Some r.

(** ** Shape of the node store *)

(** [above d m n]: one step up from [n] reaches [m], by a parent link or by
    the host link of a shadow root. *)
Definition above (d : Dom) (m n : Node) : Prop :=
  parentNode d n = Some m \/ host d n = Some m.

(** [childOf d c p]: [c] is in the child list of [p]. *)
Definition childOf (d : Dom) (c p : Node) : Prop := In c (childNodes d p).

(** Parent links and shadow-host chains are acyclic and of finite depth. *)
Definition Acyclic (d : Dom) : Prop := well_founded (above d).

(** The child lists are of finite depth as well. *)
Definition FiniteTree (d : Dom) : Prop :=
  well_founded (above d) /\ well_founded (childOf d).

(** The ultimate root reached by plain parent-node links. *)
Inductive rootOf (d : Dom) : Node -> Node -> Prop :=
| rootOf_here n : parentNode d n = None -> rootOf d n n
| rootOf_up n p r : parentNode d n = Some p -> rootOf d p r -> rootOf d n r.

(** The elements reached from [e] by repeatedly escaping to the enclosing
    shadow host. *)
Inductive hostChain (d : Dom) : Node -> Node -> Prop :=
| hostChain_refl e : hostChain d e e
| hostChain_step e h e' :
    returns (fun n => enclosingShadowHost d n e) (Some h) ->
    hostChain d h e' -> hostChain d e e'.

(** The inclusive ancestors of [e] when shadow boundaries are transparent:
    what repeated [parentElementOrShadowHost] reaches. *)
Inductive crossAncestor (d : Dom) : Node -> Node -> Prop :=
| crossAncestor_refl e : crossAncestor d e e
| crossAncestor_step e p a :
    parentElementOrShadowHost d e = Some p ->
    crossAncestor d p a -> crossAncestor d e a.

(** The inclusive element ancestors of [e] inside its own tree. *)
Inductive localAncestor (d : Dom) : Node -> Node -> Prop :=
| localAncestor_refl e : localAncestor d e e
| localAncestor_step e p a :
    parentElement d e = Some p ->
    localAncestor d p a -> localAncestor d e a.

Definition isDocument (d : Dom) (n : Node) : Prop := nodeType d n = DOCUMENT_NODE.

Definition isDocumentFragment (d : Dom) (n : Node) : Prop :=
  nodeType d n = DOCUMENT_FRAGMENT_NODE.

(** A shadow root is a document fragment that has a host. *)
Definition isShadowRoot (d : Dom) (n : Node) : Prop :=
  nodeType d n = DOCUMENT_FRAGMENT_NODE /\ host d n <> None.

(** The two loop bodies of [isElementVisible], named. *)
Definition contentsChild (d : Dom) (n : nat) (child : Node) : option bool :=
  match (if nodeType d child =? ELEMENT_NODE
         then isElementVisible d n child else Some false) with
  | None => None
  | Some true => Some true
  | Some false => Some ((nodeType d child =? TEXT_NODE) && isVisibleTextNode d child)
  end.

Definition inlineChild (d : Dom) (n : nat) (child : Node) : option bool :=
  if nodeType d child =? ELEMENT_NODE then
    match getElementComputedStyle d child None with
    | Some cs =>
        if (display cs =? "inline")%string
        then isElementVisible d n child else Some false
    | None => Some false
    end
  else Some false.

(** The same page with the element's own CSS visibility value and its own
    native-check verdict replaced. *)
Definition withOwnVisibility (d : Dom) (e : Node) (vis : string) (chk : bool) : Dom :=
  mkDom (nodeType d) (nodeName d) (parentNode d) (childNodes d) (host d)
        (ownerDocument d) (defaultView d)
        (fun v n pseudo =>
           if n =? e then mkStyle (display (getComputedStyle d v n pseudo)) vis
           else getComputedStyle d v n pseudo)
        (matches d) (details_open d) (hasCheckVisibility d)
        (fun n => if n =? e then chk else checkVisibility d n)
        (getBoundingClientRect d) (rangeRect d).

(** ** The statements under examination, as first read *)

(** The reading of C1: without [checkVisibility], the verdict is false
    exactly when the ancestor found by [closestCrossShadow] is a collapsed
    details element other than the element. *)
Definition details_fallback_crosses_shadow (d : Dom) (e : Node) : Prop :=
  hasCheckVisibility d = false ->
  forall st a,
    getElementComputedStyle d e None = Some st ->
    returns (fun n => closestCrossShadow d n (Some e) "details,summary") a ->
    (returns (fun n => isElementStyleVisibilityVisible d n e None) false <->
     closedDetailsAbove d e a = true).

(** The reading of the last clause of C4: an element detached from the
    tree (it has no parent node) is never reported not visible. *)
Definition detached_is_never_hidden (d : Dom) (e : Node) : Prop :=
  parentNode d e = None ->
  forall n, isElementVisible d n e <> Some false.

(** The reading of C7: a positive box and CSS visibility visible are
    enough. *)
Definition positive_box_and_visible_css_suffice (d : Dom) (e : Node) : Prop :=
  forall st,
    getElementComputedStyle d e None = Some st ->
    visibility st = "visible" ->
    (0 < width (getBoundingClientRect d e))%Q ->
    (0 < height (getBoundingClientRect d e))%Q ->
    returns (fun n => isElementVisible d n e) true.

(** The reading of C9 under which the root is returned only when it is a
    Document or a shadow root (a fragment that has a host). *)
Definition returns_root_iff_document_or_shadow_root (d : Dom) (e : Node) : Prop :=
  forall root, rootOf d e root ->
    (returns (fun n => enclosingShadowRootOrDocument d n e) (Some root) <->
     isDocument d root \/ isShadowRoot d root).

(** ** A sample page

    A document [0] with body [1]; a closed details element [2] holding a
    shadow host [3]; the shadow root [4] of [3] holding an inline span [5]
    with a zero-width box, its inline child [6] and the text [7]; a
    [display:contents] element [8] with hidden CSS visibility, holding the
    text [9] and an empty element [10]; a plain document fragment [11]
    (no host) holding the element [12]; every other node is an element
    detached from any document.  [cv] says whether the engine offers
    [checkVisibility]. *)

Module Sample.

Definition kind (n : Node) : nat :=
  match n with
  | 0 => DOCUMENT_NODE
  | 4 | 11 => DOCUMENT_FRAGMENT_NODE
  | 7 | 9 => TEXT_NODE
  | _ => ELEMENT_NODE
  end.

Definition name (n : Node) : string :=
  match n with
  | 0 => "#document"
  | 1 => "BODY"
  | 2 => "DETAILS"
  | 4 | 11 => "#document-fragment"
  | 5 => "SPAN"
  | 6 => "B"
  | 7 | 9 => "#text"
  | _ => "DIV"
  end.

Definition parent (n : Node) : option Node :=
  match n with
  | 1 => Some 0
  | 2 => Some 1
  | 3 => Some 2
  | 5 => Some 4
  | 6 => Some 5
  | 7 => Some 6
  | 8 => Some 1
  | 9 | 10 => Some 8
  | 12 => Some 11
  | _ => None
  end.

Definition children (n : Node) : list Node :=
  match n with
  | 0 => [1]
  | 1 => [2; 8]
  | 2 => [3]
  | 4 => [5]
  | 5 => [6]
  | 6 => [7]
  | 8 => [9; 10]
  | 11 => [12]
  | _ => []
  end.

Definition shadowHost (n : Node) : option Node :=
  match n with
  | 4 => Some 3
  | _ => None
  end.

Definition owner (n : Node) : option Node :=
  if n <=? 12 then Some 0 else None.

Definition view (n : Node) : option View :=
  match n with
  | 0 => Some 0
  | _ => None
  end.

Definition style (v : View) (n : Node) (pseudo : option string) : CSSStyleDeclaration :=
  match n with
  | 5 | 6 => mkStyle "inline" "visible"
  | 8 => mkStyle "contents" "hidden"
  | _ => mkStyle "block" "visible"
  end.

Definition selects (n : Node) (css : string) : bool :=
  if (css =? "details,summary")%string
  then (name n =? "DETAILS")%string || (name n =? "SUMMARY")%string
  else (css =? name n)%string.

Definition rendered (n : Node) : bool :=
  match n with
  | 3 | 5 | 6 => false
  | _ => true
  end.

Definition box (n : Node) : DOMRect :=
  match n with
  | 5 => mkRect 0 (10 # 1)
  | 6 => mkRect (5 # 1) (10 # 1)
  | 8 | 10 => mkRect 0 0
  | _ => mkRect (10 # 1) (10 # 1)
  end.

Definition textBox (n : Node) : DOMRect :=
  match n with
  | 7 => mkRect (5 # 1) (10 # 1)
  | 9 => mkRect (20 # 1) (10 # 1)
  | _ => mkRect 0 0
  end.

Definition page (cv : bool) : Dom :=
  mkDom kind name parent children shadowHost owner view style selects
        (fun _ => false) cv rendered box textBox.

Definition level (n : Node) : nat :=
  match n with
  | 1 | 12 => 1
  | 2 | 8 => 2
  | 3 | 9 | 10 => 3
  | 4 => 4
  | 5 => 5
  | 6 => 6
  | 7 => 7
  | _ => 0
  end.

End Sample.

(** ** Nodes outside the rendered document

    A document [0] with a view, and the element [1] created in it and never
    attached: it has no parent, its owner document is [0], and the engine
    resolves for it the empty style of an element outside the tree, no box,
    and a false native check.  A document [2] without a view (one built by
    a parser, with no browsing context) and its body [3]. *)

Module Offscreen.

Definition kind (n : Node) : nat :=
  match n with
  | 0 | 2 => DOCUMENT_NODE
  | _ => ELEMENT_NODE
  end.

Definition name (n : Node) : string :=
  match n with
  | 0 | 2 => "#document"
  | 3 => "BODY"
  | _ => "DIV"
  end.

Definition parent (n : Node) : option Node :=
  match n with
  | 3 => Some 2
  | _ => None
  end.

Definition children (n : Node) : list Node :=
  match n with
  | 2 => [3]
  | _ => []
  end.

Definition owner (n : Node) : option Node :=
  match n with
  | 0 | 2 => None
  | 1 => Some 0
  | _ => Some 2
  end.

Definition view (n : Node) : option View :=
  match n with
  | 0 => Some 0
  | _ => None
  end.

Definition style (v : View) (n : Node) (pseudo : option string) : CSSStyleDeclaration :=
  mkStyle "" "".

Definition selects (n : Node) (css : string) : bool :=
  if (css =? "details,summary")%string
  then (name n =? "DETAILS")%string || (name n =? "SUMMARY")%string
  else (css =? name n)%string.

Definition page (cv : bool) : Dom :=
  mkDom kind name parent children (fun _ => None) owner view style selects
        (fun _ => false) cv (fun _ => false)
        (fun _ => mkRect 0 0) (fun _ => mkRect 0 0).

End Offscreen.

(** ** Results do not depend on the budget *)

Lemma returns_unique {A : Type} (f : nat -> option A) (a b : A) :
  monotone f -> returns f a -> returns f b -> a = b.
Proof.
  intros Hm [n Hn] [m Hm'].
  destruct (Nat.le_ge_cases n m) as [Hle | Hle].
  - apply (Hm _ _ _ Hle) in Hn. congruence.
  - apply (Hm _ _ _ Hle) in Hm'. congruence.
Qed.

Lemma returns_at {A : Type} (f : nat -> option A) (a : A) :
  monotone f -> returns f a -> exists n, forall m, n <= m -> f m = Some a.
Proof.
  intros Hm [n Hn]. exists n. intros m Hle. exact (Hm _ _ _ Hle Hn).
Qed.

Ltac fuel_mono IH :=
  let n := fresh "n" in
  intros n; induction n as [| n IH]; intros;
  [ discriminate
  | match goal with
    | H : S _ <= ?m |- _ => destruct m as [| m]; [ lia | ]
    end ].

Section Monotone.

Variable d : Dom.

Lemma contains_mono scope :
  forall n m other r, n <= m ->
    contains d n scope other = Some r -> contains d m scope other = Some r.
Proof.
  fuel_mono IH. simpl in *.
  destruct (scope =? other); [ assumption | ].
  destruct (parentNode d other); [ | assumption ].
  apply IH with (m := m) in H0; [ assumption | lia ].
Qed.

Lemma closest_mono css :
  forall n m e r, n <= m ->
    closest d n e css = Some r -> closest d m e css = Some r.
Proof.
  fuel_mono IH. simpl in *.
  destruct (matches d e css); [ assumption | ].
  destruct (parentElement d e); [ | assumption ].
  apply IH with (m := m) in H0; [ assumption | lia ].
Qed.

Lemma enclosingShadowRootOrDocument_mono :
  forall n m e r, n <= m ->
    enclosingShadowRootOrDocument d n e = Some r ->
    enclosingShadowRootOrDocument d m e = Some r.
Proof.
  fuel_mono IH. simpl in *.
  destruct (parentNode d e); [ | assumption ].
  apply IH with (m := m) in H0; [ assumption | lia ].
Qed.

Lemma enclosingShadowHost_mono :
  forall n m e r, n <= m ->
    enclosingShadowHost d n e = Some r -> enclosingShadowHost d m e = Some r.
Proof.
  fuel_mono IH. simpl in *.
  destruct (parentElement d e); [ | assumption ].
  apply IH with (m := m) in H0; [ assumption | lia ].
Qed.

Lemma isInsideScope_mono scope :
  forall n m e r, n <= m ->
    isInsideScope d n scope e = Some r -> isInsideScope d m scope e = Some r.
Proof.
  fuel_mono IH. simpl in *.
  destruct e as [e |]; [ | assumption ].
  destruct (contains d n scope e) as [[|] |] eqn:Hc; try discriminate;
    rewrite (contains_mono scope n m e _ ltac:(lia) Hc); [ assumption | ].
  destruct (enclosingShadowHost d n e) as [h |] eqn:Hh; try discriminate.
  rewrite (enclosingShadowHost_mono n m e _ ltac:(lia) Hh).
  apply IH with (m := m) in H0; [ assumption | lia ].
Qed.

Lemma closestCrossShadow_mono css :
  forall n m e r, n <= m ->
    closestCrossShadow d n e css = Some r -> closestCrossShadow d m e css = Some r.
Proof.
  fuel_mono IH. simpl in *.
  destruct e as [e |]; [ | assumption ].
  destruct (closest d n e css) as [[c |] |] eqn:Hc; try discriminate;
    rewrite (closest_mono css n m e _ ltac:(lia) Hc); [ assumption | ].
  destruct (enclosingShadowHost d n e) as [h |] eqn:Hh; try discriminate.
  rewrite (enclosingShadowHost_mono n m e _ ltac:(lia) Hh).
  apply IH with (m := m) in H0; [ assumption | lia ].
Qed.

Lemma isElementStyleVisibilityVisible_mono :
  forall n m e style r, n <= m ->
    isElementStyleVisibilityVisible d n e style = Some r ->
    isElementStyleVisibilityVisible d m e style = Some r.
Proof.
  intros n m e style r Hle. unfold isElementStyleVisibilityVisible.
  destruct (match style with Some s => Some s | None => getElementComputedStyle d e None end);
    [ | trivial ].
  destruct (hasCheckVisibility d); [ trivial | ].
  destruct (closest d n e "details,summary") as [a |] eqn:Hc; [ | discriminate ].
  rewrite (closest_mono _ n m e _ Hle Hc). trivial.
Qed.

Lemma anyChild_mono (t1 t2 : Node -> option bool) :
  (forall c r, t1 c = Some r -> t2 c = Some r) ->
  forall l r, anyChild t1 l = Some r -> anyChild t2 l = Some r.
Proof.
  intros Ht l. induction l as [| c l IH]; simpl; intros r H; [ assumption | ].
  destruct (t1 c) as [[|] |] eqn:Hc; try discriminate;
    rewrite (Ht _ _ Hc); auto.
Qed.

Lemma isElementVisible_mono :
  forall n m e r, n <= m ->
    isElementVisible d n e = Some r -> isElementVisible d m e = Some r.
Proof.
  fuel_mono IH. simpl in *.
  destruct (getElementComputedStyle d e None) as [st |]; [ | assumption ].
  assert (Hrec : forall c r, isElementVisible d n c = Some r ->
                             isElementVisible d m c = Some r)
    by (intros; apply IH with (m := m) in H1; [ assumption | lia ]).
  destruct (display st =? "contents")%string.
  - revert H0. apply anyChild_mono. intros c r0.
    destruct (nodeType d c =? ELEMENT_NODE); [ | trivial ].
    destruct (isElementVisible d n c) as [[|] |] eqn:Hc; try discriminate;
      rewrite (Hrec _ _ Hc); trivial.
  - destruct (isElementStyleVisibilityVisible d n e (Some st)) as [[|] |] eqn:Hs;
      try discriminate;
      rewrite (isElementStyleVisibilityVisible_mono n m e _ _ ltac:(lia) Hs);
      [ | assumption ].
    destruct (negb _ && _ && _); [ | assumption ].
    revert H0. apply anyChild_mono. intros c r0.
    destruct (nodeType d c =? ELEMENT_NODE); [ | trivial ].
    destruct (getElementComputedStyle d c None) as [cs |]; [ | trivial ].
    destruct (display cs =? "inline")%string; [ | trivial ].
    apply Hrec.
Qed.

End Monotone.

(** ** Shadow traversal: termination and results *)

Section Traversal.

Variable d : Dom.

Lemma parentElement_parentNode e p :
  parentElement d e = Some p -> parentNode d e = Some p.
Proof.
  unfold parentElement. destruct (parentNode d e) as [q |]; [ | discriminate ].
  destruct (nodeType d q =? ELEMENT_NODE); congruence.
Qed.

Lemma parentElement_above e p : parentElement d e = Some p -> above d p e.
Proof. intros H. left. apply parentElement_parentNode, H. Qed.

Lemma parentElement_cross e p :
  parentElement d e = Some p -> parentElementOrShadowHost d e = Some p.
Proof. intros H. unfold parentElementOrShadowHost. rewrite H. reflexivity. Qed.

Lemma parentElementOrShadowHost_above e h :
  parentElementOrShadowHost d e = Some h -> clos_trans Node (above d) h e.
Proof.
  unfold parentElementOrShadowHost.
  destruct (parentElement d e) as [p |] eqn:Hp.
  - intros [= <-]. apply t_step, parentElement_above, Hp.
  - destruct (parentNode d e) as [pn |] eqn:Hn; [ | discriminate ].
    destruct (nodeType d pn =? DOCUMENT_FRAGMENT_NODE); [ | discriminate ].
    intros Hh. apply t_trans with pn; apply t_step; [ right | left ]; assumption.
Qed.

Lemma enclosingShadowHost_above :
  forall n e h, enclosingShadowHost d n e = Some (Some h) ->
    clos_trans Node (above d) h e.
Proof.
  induction n as [| n IH]; simpl; intros e h H; [ discriminate | ].
  destruct (parentElement d e) as [p |] eqn:Hp.
  - apply t_trans with p; [ apply IH, H | apply t_step, parentElement_above, Hp ].
  - injection H as H. apply parentElementOrShadowHost_above, H.
Qed.

Lemma contains_terminates scope e :
  Acc (above d) e -> exists b, returns (fun n => contains d n scope e) b.
Proof.
  induction 1 as [e _ IH].
  destruct (scope =? e) eqn:He.
  - exists true, 1. simpl. rewrite He. reflexivity.
  - destruct (parentNode d e) as [p |] eqn:Hp.
    + destruct (IH p (or_introl Hp)) as [b [n Hn]].
      exists b, (S n). simpl. rewrite He, Hp. exact Hn.
    + exists false, 1. simpl. rewrite He, Hp. reflexivity.
Qed.

Lemma closest_terminates e css :
  Acc (above d) e -> exists r, returns (fun n => closest d n e css) r.
Proof.
  induction 1 as [e _ IH].
  destruct (matches d e css) eqn:He.
  - exists (Some e), 1. simpl. rewrite He. reflexivity.
  - destruct (parentElement d e) as [p |] eqn:Hp.
    + destruct (IH p (parentElement_above _ _ Hp)) as [r [n Hn]].
      exists r, (S n). simpl. rewrite He, Hp. exact Hn.
    + exists None, 1. simpl. rewrite He, Hp. reflexivity.
Qed.

Lemma enclosingShadowHost_terminates e :
  Acc (above d) e -> exists r, returns (fun n => enclosingShadowHost d n e) r.
Proof.
  induction 1 as [e _ IH].
  destruct (parentElement d e) as [p |] eqn:Hp.
  - destruct (IH p (parentElement_above _ _ Hp)) as [r [n Hn]].
    exists r, (S n). simpl. rewrite Hp. exact Hn.
  - exists (parentElementOrShadowHost d e), 1. simpl. rewrite Hp. reflexivity.
Qed.

Lemma enclosingShadowRootOrDocument_terminates e :
  Acc (above d) e ->
  exists root, rootOf d e root /\
    returns (fun n => enclosingShadowRootOrDocument d n e)
      (if (nodeType d root =? DOCUMENT_FRAGMENT_NODE) || (nodeType d root =? DOCUMENT_NODE)
       then Some root else None).
Proof.
  induction 1 as [e _ IH].
  destruct (parentNode d e) as [p |] eqn:Hp.
  - destruct (IH p (or_introl Hp)) as [root [Hr [n Hn]]].
    exists root. split; [ eapply rootOf_up; eassumption | ].
    exists (S n). simpl. rewrite Hp. exact Hn.
  - exists e. split; [ apply rootOf_here, Hp | ].
    exists 1. simpl. rewrite Hp.
    destruct ((nodeType d e =? DOCUMENT_FRAGMENT_NODE) || (nodeType d e =? DOCUMENT_NODE));
      reflexivity.
Qed.

Lemma rootOf_unique e r1 r2 : rootOf d e r1 -> rootOf d e r2 -> r1 = r2.
Proof.
  induction 1 as [n Hn | n p r Hp _ IH]; intros H2; inversion H2; subst;
    try congruence.
  apply IH. congruence.
Qed.

Lemma isInsideScope_terminates scope :
  Acyclic d -> forall e, exists b, returns (fun n => isInsideScope d n scope e) b.
Proof.
  intros Hwf [e |]; [ | exists false, 1; reflexivity ].
  induction (wf_clos_trans Node (above d) Hwf e) as [e _ IH].
  destruct (contains_terminates scope e (Hwf e)) as [[|] [n1 H1]].
  - exists true, (S n1). simpl. rewrite H1. reflexivity.
  - destruct (enclosingShadowHost_terminates e (Hwf e)) as [[h |] [n2 H2]].
    + destruct (IH h (enclosingShadowHost_above _ _ _ H2)) as [b [n3 H3]].
      exists b, (S (n1 + n2 + n3)). simpl.
      rewrite (contains_mono d scope n1 (n1 + n2 + n3) _ _ ltac:(lia) H1).
      rewrite (enclosingShadowHost_mono d n2 (n1 + n2 + n3) _ _ ltac:(lia) H2).
      apply (isInsideScope_mono d scope n3); [ lia | exact H3 ].
    + exists false, (S (S (n1 + n2))). cbn [isInsideScope].
      rewrite (contains_mono d scope n1 (S (n1 + n2)) _ _ ltac:(lia) H1).
      rewrite (enclosingShadowHost_mono d n2 (S (n1 + n2)) _ _ ltac:(lia) H2).
      reflexivity.
Qed.

Lemma closestCrossShadow_terminates css :
  Acyclic d -> forall e, exists r, returns (fun n => closestCrossShadow d n e css) r.
Proof.
  intros Hwf [e |]; [ | exists None, 1; reflexivity ].
  induction (wf_clos_trans Node (above d) Hwf e) as [e _ IH].
  destruct (closest_terminates e css (Hwf e)) as [[c |] [n1 H1]].
  - exists (Some c), (S n1). simpl. rewrite H1. reflexivity.
  - destruct (enclosingShadowHost_terminates e (Hwf e)) as [[h |] [n2 H2]].
    + destruct (IH h (enclosingShadowHost_above _ _ _ H2)) as [r [n3 H3]].
      exists r, (S (n1 + n2 + n3)). simpl.
      rewrite (closest_mono d css n1 (n1 + n2 + n3) _ _ ltac:(lia) H1).
      rewrite (enclosingShadowHost_mono d n2 (n1 + n2 + n3) _ _ ltac:(lia) H2).
      apply (closestCrossShadow_mono d css n3); [ lia | exact H3 ].
    + exists None, (S (S (n1 + n2))). cbn [closestCrossShadow].
      rewrite (closest_mono d css n1 (S (n1 + n2)) _ _ ltac:(lia) H1).
      rewrite (enclosingShadowHost_mono d n2 (S (n1 + n2)) _ _ ltac:(lia) H2).
      reflexivity.
Qed.

(** What [isInsideScope] answers. *)

Lemma isInsideScope_true_chain scope :
  forall n e, isInsideScope d n scope (Some e) = Some true ->
    exists e', hostChain d e e' /\ returns (fun k => contains d k scope e') true.
Proof.
  induction n as [| n IH]; simpl; intros e H; [ discriminate | ].
  destruct (contains d n scope e) as [[|] |] eqn:Hc; try discriminate.
  - exists e. split; [ apply hostChain_refl | exists n; exact Hc ].
  - destruct (enclosingShadowHost d n e) as [[h |] |] eqn:Hh; try discriminate.
    + destruct (IH h H) as [e' [Hch He']].
      exists e'. split; [ | exact He' ].
      eapply hostChain_step; [ exists n; exact Hh | exact Hch ].
    + destruct n; discriminate.
Qed.

Lemma chain_isInsideScope_true scope :
  Acyclic d ->
  forall e e', hostChain d e e' ->
    returns (fun k => contains d k scope e') true ->
    returns (fun n => isInsideScope d n scope (Some e)) true.
Proof.
  intros Hwf e e' Hch. induction Hch as [e | e h e' [n2 H2] _ IH]; intros Hc.
  - destruct Hc as [n Hn]. exists (S n). simpl. rewrite Hn. reflexivity.
  - destruct (contains_terminates scope e (Hwf e)) as [[|] [n1 H1]].
    + exists (S n1). simpl. rewrite H1. reflexivity.
    + destruct (IH Hc) as [n3 H3].
      exists (S (n1 + n2 + n3)). simpl.
      rewrite (contains_mono d scope n1 (n1 + n2 + n3) _ _ ltac:(lia) H1).
      rewrite (enclosingShadowHost_mono d n2 (n1 + n2 + n3) _ _ ltac:(lia) H2).
      apply (isInsideScope_mono d scope n3); [ lia | exact H3 ].
Qed.

(** What [closest] and [closestCrossShadow] answer. *)

Lemma localAncestor_cross e a : localAncestor d e a -> crossAncestor d e a.
Proof.
  induction 1 as [e | e p a Hp _ IH]; [ apply crossAncestor_refl | ].
  eapply crossAncestor_step; [ apply parentElement_cross, Hp | exact IH ].
Qed.

Lemma closest_result css :
  forall n e r, closest d n e css = Some r ->
    match r with
    | Some a => localAncestor d e a /\ matches d a css = true
    | None => forall a, localAncestor d e a -> matches d a css = false
    end.
Proof.
  induction n as [| n IH]; simpl; intros e r H; [ discriminate | ].
  destruct (matches d e css) eqn:He.
  - injection H as <-. split; [ apply localAncestor_refl | exact He ].
  - destruct (parentElement d e) as [p |] eqn:Hp.
    + specialize (IH p r H). destruct r as [a |].
      * destruct IH as [Ha Hm]. split; [ | exact Hm ].
        eapply localAncestor_step; eassumption.
      * intros a Ha. inversion Ha; subst; [ exact He | ].
        apply IH. congruence.
    + injection H as <-. intros a Ha. inversion Ha; subst; [ exact He | congruence ].
Qed.

Lemma enclosingShadowHost_cross_up :
  forall n e h a, enclosingShadowHost d n e = Some (Some h) ->
    crossAncestor d h a -> crossAncestor d e a.
Proof.
  induction n as [| n IH]; simpl; intros e h a H Ha; [ discriminate | ].
  destruct (parentElement d e) as [p |] eqn:Hp.
  - eapply crossAncestor_step; [ apply parentElement_cross, Hp | ].
    eapply IH; eassumption.
  - injection H as H. eapply crossAncestor_step; eassumption.
Qed.

Lemma enclosingShadowHost_cross_split :
  forall n e r a, enclosingShadowHost d n e = Some r ->
    crossAncestor d e a ->
    localAncestor d e a \/ exists h, r = Some h /\ crossAncestor d h a.
Proof.
  induction n as [| n IH]; simpl; intros e r a H Ha; [ discriminate | ].
  destruct (parentElement d e) as [p |] eqn:Hp.
  - inversion Ha as [| e0 p' a0 Hp' Ha']; subst; [ left; apply localAncestor_refl | ].
    rewrite (parentElement_cross _ _ Hp) in Hp'. injection Hp' as <-.
    destruct (IH p r a H Ha') as [Hl | Hr]; [ left | right; exact Hr ].
    eapply localAncestor_step; eassumption.
  - injection H as <-.
    inversion Ha as [| e0 p' a0 Hp' Ha']; subst; [ left; apply localAncestor_refl | ].
    right. exists p'. split; assumption.
Qed.

Lemma closestCrossShadow_result css :
  forall n e r, closestCrossShadow d n (Some e) css = Some r ->
    match r with
    | Some a => crossAncestor d e a /\ matches d a css = true
    | None => forall a, crossAncestor d e a -> matches d a css = false
    end.
Proof.
  induction n as [| n IH]; simpl; intros e r H; [ discriminate | ].
  destruct (closest d n e css) as [[c |] |] eqn:Hc; try discriminate.
  - injection H as <-. destruct (closest_result css _ _ _ Hc) as [Ha Hm].
    split; [ apply localAncestor_cross, Ha | exact Hm ].
  - pose proof (closest_result css _ _ _ Hc) as Hloc. simpl in Hloc.
    destruct (enclosingShadowHost d n e) as [[h |] |] eqn:Hh; try discriminate.
    + specialize (IH h r H). destruct r as [a |].
      * destruct IH as [Ha Hm]. split; [ | exact Hm ].
        eapply enclosingShadowHost_cross_up; eassumption.
      * intros a Ha.
        destruct (enclosingShadowHost_cross_split _ _ _ _ Hh Ha) as [Hl | [h' [Heq Hr]]];
          [ apply Hloc, Hl | ].
        injection Heq as <-. apply IH, Hr.
    + destruct n; [ discriminate | ]. simpl in H. injection H as <-.
      intros a Ha.
      destruct (enclosingShadowHost_cross_split _ _ _ _ Hh Ha) as [Hl | [h' [Heq _]]];
        [ apply Hloc, Hl | discriminate ].
Qed.

End Traversal.

(** ** Element visibility: termination and results *)

Lemma anyChild_result (test : Node -> option bool) :
  forall l b, anyChild test l = Some b ->
    if b then exists c, In c l /\ test c = Some true
    else forall c, In c l -> test c = Some false.
Proof.
  induction l as [| c0 l IH]; simpl; intros b H.
  - injection H as <-. intros c [].
  - destruct (test c0) as [[|] |] eqn:H0; try discriminate.
    + injection H as <-. exists c0. auto.
    + specialize (IH b H). destruct b.
      * destruct IH as [c [Hin Hc]]. exists c. auto.
      * intros c [<- | Hin]; auto.
Qed.

Lemma anyChild_terminates (test : Node -> option bool) :
  forall l, (forall c, In c l -> exists r, test c = Some r) ->
    exists b, anyChild test l = Some b.
Proof.
  induction l as [| c0 l IH]; simpl; intros H; [ eauto | ].
  destruct (H c0 (or_introl eq_refl)) as [[|] ->]; [ eauto | ].
  apply IH. intros c Hc. apply H. auto.
Qed.

Lemma common_fuel (f : nat -> Node -> option bool) :
  (forall n m c r, n <= m -> f n c = Some r -> f m c = Some r) ->
  forall l, (forall c, In c l -> exists n r, f n c = Some r) ->
    exists N, forall c, In c l -> exists r, f N c = Some r.
Proof.
  intros Hm. induction l as [| c0 l IH]; intros H.
  - exists 0. intros c [].
  - destruct (H c0 (or_introl eq_refl)) as [n0 [r0 H0]].
    destruct IH as [N HN]; [ intros c Hc; apply H; right; exact Hc | ].
    exists (n0 + N). intros c [<- | Hc].
    + exists r0. apply (Hm n0); [ lia | exact H0 ].
    + destruct (HN c Hc) as [r Hr]. exists r. apply (Hm N); [ lia | exact Hr ].
Qed.

Section Visibility.

Variable d : Dom.

Lemma isElementVisible_unfold n e :
  isElementVisible d (S n) e =
  match getElementComputedStyle d e None with
  | None => Some true
  | Some style =>
      if (display style =? "contents")%string then
        anyChild (contentsChild d n) (childNodes d e)
      else
        match isElementStyleVisibilityVisible d n e (Some style) with
        | None => None
        | Some false => Some false
        | Some true =>
            let rect := getBoundingClientRect d e in
            let visible := gt0 (width rect) && gt0 (height rect) in
            if negb visible && (display style =? "inline")%string && gt0 (height rect)
            then anyChild (inlineChild d n) (childNodes d e)
            else Some visible
        end
  end.
Proof. reflexivity. Qed.

Lemma contentsChild_mono n m c r :
  n <= m -> contentsChild d n c = Some r -> contentsChild d m c = Some r.
Proof.
  intros Hle. unfold contentsChild.
  destruct (nodeType d c =? ELEMENT_NODE); [ | trivial ].
  destruct (isElementVisible d n c) as [[|] |] eqn:Hc; try discriminate;
    rewrite (isElementVisible_mono d n m c _ Hle Hc); trivial.
Qed.

Lemma inlineChild_mono n m c r :
  n <= m -> inlineChild d n c = Some r -> inlineChild d m c = Some r.
Proof.
  intros Hle. unfold inlineChild.
  destruct (nodeType d c =? ELEMENT_NODE); [ | trivial ].
  destruct (getElementComputedStyle d c None) as [cs |]; [ | trivial ].
  destruct (display cs =? "inline")%string; [ | trivial ].
  apply isElementVisible_mono, Hle.
Qed.

Lemma contentsChild_true n c :
  contentsChild d n c = Some true <->
  (nodeType d c = ELEMENT_NODE /\ isElementVisible d n c = Some true) \/
  (nodeType d c = TEXT_NODE /\ isVisibleTextNode d c = true).
Proof.
  unfold contentsChild.
  destruct (nodeType d c =? ELEMENT_NODE) eqn:He.
  - apply Nat.eqb_eq in He. rewrite He.
    change (ELEMENT_NODE =? TEXT_NODE) with false. simpl.
    destruct (isElementVisible d n c) as [[|] |]; split;
      try (intros [[_ H] | [H _]]; discriminate); try discriminate; auto.
  - apply Nat.eqb_neq in He. split.
    + intros [= H]. apply andb_true_iff in H. destruct H as [Ht Hv].
      apply Nat.eqb_eq in Ht. auto.
    + intros [[H _] | [Ht Hv]]; [ contradiction | ].
      rewrite Ht, Hv. reflexivity.
Qed.

Lemma inlineChild_true n c :
  inlineChild d n c = Some true <->
  nodeType d c = ELEMENT_NODE /\
  (exists cs, getElementComputedStyle d c None = Some cs /\ display cs = "inline") /\
  isElementVisible d n c = Some true.
Proof.
  unfold inlineChild.
  destruct (nodeType d c =? ELEMENT_NODE) eqn:He.
  - apply Nat.eqb_eq in He.
    destruct (getElementComputedStyle d c None) as [cs |].
    + destruct (display cs =? "inline")%string eqn:Hd.
      * apply String.eqb_eq in Hd. split; [ intros H | intros [_ [_ H]]; exact H ].
        repeat split; eauto.
      * apply String.eqb_neq in Hd. split; [ discriminate | ].
        intros [_ [[cs' [[= <-] Hi]] _]]. contradiction.
    + split; [ discriminate | ]. intros [_ [[cs' [[=] _]] _]].
  - apply Nat.eqb_neq in He. split; [ discriminate | ]. intros [H _]. contradiction.
Qed.

Lemma isElementStyleVisibilityVisible_terminates e style :
  Acc (above d) e ->
  exists b, returns (fun n => isElementStyleVisibilityVisible d n e style) b.
Proof.
  intros Hacc. unfold isElementStyleVisibilityVisible, returns.
  destruct (match style with Some s => Some s | None => getElementComputedStyle d e None end)
    as [st |]; [ | exists true, 0; reflexivity ].
  destruct (hasCheckVisibility d).
  - destruct (negb (checkVisibility d e)); eexists; exists 0; reflexivity.
  - destruct (closest_terminates d e "details,summary" Hacc) as [a [n Hn]].
    destruct (closedDetailsAbove d e a) eqn:Hcd; eexists; exists n;
      rewrite Hn, Hcd; reflexivity.
Qed.

Lemma isElementVisible_terminates :
  FiniteTree d -> forall e, exists b, returns (fun n => isElementVisible d n e) b.
Proof.
  intros [Hup Hdown] e.
  induction (Hdown e) as [e _ IH].
  assert (Hkids : exists N, forall c, In c (childNodes d e) ->
                    exists r, isElementVisible d N c = Some r).
  { apply (common_fuel (isElementVisible d) (isElementVisible_mono d)).
    intros c Hc. destruct (IH c Hc) as [b [n Hn]]. eauto. }
  destruct Hkids as [N HN].
  destruct (isElementStyleVisibilityVisible_terminates e
              (getElementComputedStyle d e None) (Hup e)) as [sv [n1 H1]].
  assert (Hc1 : exists b, anyChild (contentsChild d (N + n1)) (childNodes d e) = Some b).
  { apply anyChild_terminates. intros c Hc. destruct (HN c Hc) as [r Hr].
    unfold contentsChild.
    rewrite (isElementVisible_mono d N (N + n1) c r ltac:(lia) Hr).
    destruct (nodeType d c =? ELEMENT_NODE); [ destruct r | ]; eauto. }
  assert (Hc2 : exists b, anyChild (inlineChild d (N + n1)) (childNodes d e) = Some b).
  { apply anyChild_terminates. intros c Hc. destruct (HN c Hc) as [r Hr].
    unfold inlineChild.
    rewrite (isElementVisible_mono d N (N + n1) c r ltac:(lia) Hr).
    destruct (nodeType d c =? ELEMENT_NODE); [ | eauto ].
    destruct (getElementComputedStyle d c None) as [cs |]; [ | eauto ].
    destruct (display cs =? "inline")%string; eauto. }
  destruct Hc1 as [b1 Hb1]. destruct Hc2 as [b2 Hb2].
  unfold returns.
  assert (Hgoal : exists b, isElementVisible d (S (N + n1)) e = Some b);
    [ | destruct Hgoal as [b Hb]; eauto ].
  rewrite isElementVisible_unfold.
  destruct (getElementComputedStyle d e None) as [st |]; [ | eauto ].
  destruct (display st =? "contents")%string; [ eauto | ].
  rewrite (isElementStyleVisibilityVisible_mono d n1 (N + n1) e _ _ ltac:(lia) H1).
  destruct sv; [ | eauto ]. cbv zeta.
  destruct (negb _ && _ && _); eauto.
Qed.

(** The verdict for a [display:contents] element is the scan of its
    children. *)
Lemma contents_verdict e st :
  FiniteTree d ->
  getElementComputedStyle d e None = Some st ->
  display st = "contents" ->
  exists b, returns (fun n => isElementVisible d n e) b /\
    (b = true <->
     exists c, In c (childNodes d e) /\
       ((nodeType d c = ELEMENT_NODE /\ returns (fun n => isElementVisible d n c) true) \/
        (nodeType d c = TEXT_NODE /\ isVisibleTextNode d c = true))).
Proof.
  intros Hft Hst Hd.
  destruct (isElementVisible_terminates Hft e) as [b [n Hn]].
  exists b. split; [ exists n; exact Hn | ].
  destruct n as [| n]; [ discriminate | ].
  rewrite isElementVisible_unfold, Hst, Hd in Hn. simpl in Hn.
  apply anyChild_result in Hn. destruct b.
  - split; [ intros _ | reflexivity ].
    destruct Hn as [c [Hin Hc]]. exists c. split; [ exact Hin | ].
    apply contentsChild_true in Hc.
    destruct Hc as [[He Hv] | Ht]; [ left | right; exact Ht ].
    split; [ exact He | exists n; exact Hv ].
  - split; [ discriminate | ].
    intros [c [Hin Hc]]. specialize (Hn c Hin).
    destruct Hc as [[He [k Hk]] | Ht].
    + assert (Hc : contentsChild d (n + k) c = Some true).
      { apply contentsChild_true. left. split; [ exact He | ].
        apply (isElementVisible_mono d k); [ lia | exact Hk ]. }
      apply (contentsChild_mono n (n + k)) in Hn; [ congruence | lia ].
    + assert (Hc : contentsChild d n c = Some true)
        by (apply contentsChild_true; right; exact Ht).
      congruence.
Qed.

End Visibility.

Lemma page_acyclic cv : Acyclic (Sample.page cv).
Proof.
  apply (well_founded_lt_compat Node Sample.level).
  intros m n [H | H]; simpl in H;
    do 13 (destruct n as [| n];
           [ try discriminate; injection H as <-; simpl; lia | ]);
    discriminate.
Qed.

Lemma page_finite cv : FiniteTree (Sample.page cv).
Proof.
  split; [ apply page_acyclic | ].
  apply (well_founded_lt_compat Node (fun n => 10 - Sample.level n)).
  intros c p H. unfold childOf in H. simpl in H.
  do 12 (destruct p as [| p];
         [ simpl in H; intuition (subst; simpl; lia) | ]).
  destruct H.
Qed.

Lemma gt0_iff (x : Q) : gt0 x = true <-> (0 < x)%Q.
Proof.
  unfold gt0, Qlt. simpl. rewrite Z.mul_1_r. apply Z.ltb_lt.
Qed.

(** ** Shadow traversal: the stated properties *)

(** C5: [isInsideScope scope element] returns, and it returns true exactly
    when [scope] contains the element or contains one of the elements
    reached from it by repeated [enclosingShadowHost]; an absent element
    gives false; and an element whose enclosing shadow host is contained in
    the scope is inside the scope. *)
Theorem isInsideScope_iff_host_chain_contained (d : Dom) (scope e : Node) :
  Acyclic d ->
  (exists b, returns (fun n => isInsideScope d n scope (Some e)) b /\
     (b = true <->
      exists e', hostChain d e e' /\ returns (fun n => contains d n scope e') true)) /\
  returns (fun n => isInsideScope d n scope None) false /\
  (forall h, returns (fun n => enclosingShadowHost d n e) (Some h) ->
     returns (fun n => contains d n scope h) true ->
     returns (fun n => isInsideScope d n scope (Some e)) true).
Proof.
  intros Hwf. split; [ | split ].
  - destruct (isInsideScope_terminates d scope Hwf (Some e)) as [b [n Hn]].
    exists b. split; [ exists n; exact Hn | ]. split.
    + intros ->. eapply isInsideScope_true_chain, Hn.
    + intros [e' [Hch Hc]].
      pose proof (chain_isInsideScope_true d scope Hwf e e' Hch Hc) as Ht.
      apply (returns_unique (fun n => isInsideScope d n scope (Some e))).
      * intros n0 m r Hle. apply isInsideScope_mono, Hle.
      * exists n. exact Hn.
      * exact Ht.
  - exists 1. reflexivity.
  - intros h Hh Hc. apply (chain_isInsideScope_true d scope Hwf e h); [ | exact Hc ].
    eapply hostChain_step; [ exact Hh | apply hostChain_refl ].
Qed.

(** On the sample page the text [7] lives in the shadow tree of the host
    [3], which the details element [2] contains: plain containment is false
    and [isInsideScope] is true. *)
Lemma isInsideScope_iff_host_chain_contained_witness :
  Acyclic (Sample.page true) /\
  contains (Sample.page true) 10 2 7 = Some false /\
  isInsideScope (Sample.page true) 10 2 (Some 7) = Some true /\
  ((exists b, returns (fun n => isInsideScope (Sample.page true) n 2 (Some 7)) b /\
     (b = true <->
      exists e', hostChain (Sample.page true) 7 e' /\
                 returns (fun n => contains (Sample.page true) n 2 e') true)) /\
   returns (fun n => isInsideScope (Sample.page true) n 2 None) false /\
   (forall h, returns (fun n => enclosingShadowHost (Sample.page true) n 7) (Some h) ->
      returns (fun n => contains (Sample.page true) n 2 h) true ->
      returns (fun n => isInsideScope (Sample.page true) n 2 (Some 7)) true)).
Proof.
  split; [ apply page_acyclic | ].
  split; [ vm_compute; reflexivity | ].
  split; [ vm_compute; reflexivity | ].
  apply (isInsideScope_iff_host_chain_contained (Sample.page true) 2 7).
  apply page_acyclic.
Defined.

(** C6: [closestCrossShadow e sel] returns [e] when [e] matches; when the
    local tree has no match its result is the result of the retry from the
    enclosing shadow host; and, on an acyclic store, it returns, with none
    exactly when no inclusive ancestor across shadow boundaries matches,
    and otherwise one such ancestor that matches. *)
Theorem closestCrossShadow_result_across_hosts (d : Dom) (e : Node) (sel : string) :
  Acyclic d ->
  (matches d e sel = true ->
     returns (fun n => closestCrossShadow d n (Some e) sel) (Some e)) /\
  (forall h r,
     returns (fun n => closest d n e sel) None ->
     returns (fun n => enclosingShadowHost d n e) h ->
     (returns (fun n => closestCrossShadow d n (Some e) sel) r <->
      returns (fun n => closestCrossShadow d n h sel) r)) /\
  (exists r, returns (fun n => closestCrossShadow d n (Some e) sel) r /\
     (r = None <-> forall a, crossAncestor d e a -> matches d a sel = false) /\
     (forall a, r = Some a -> crossAncestor d e a /\ matches d a sel = true)).
Proof.
  intros Hwf.
  assert (Hmono : monotone (fun n => closestCrossShadow d n (Some e) sel))
    by (intros n m r Hle; apply closestCrossShadow_mono, Hle).
  split; [ | split ].
  - intros Hm. exists 2. simpl. rewrite Hm. reflexivity.
  - intros h r [n1 H1] [n2 H2]. split.
    + intros [n Hn]. destruct n as [| n]; [ discriminate | ]. simpl in Hn.
      destruct (closest d n e sel) as [[c |] |] eqn:Hc; try discriminate.
      * apply (closest_mono d sel n (n + n1)) in Hc; [ | lia ].
        apply (closest_mono d sel n1 (n + n1)) in H1; [ congruence | lia ].
      * destruct (enclosingShadowHost d n e) as [h' |] eqn:Hh; [ | discriminate ].
        apply (enclosingShadowHost_mono d n (n + n2)) in Hh; [ | lia ].
        apply (enclosingShadowHost_mono d n2 (n + n2)) in H2; [ | lia ].
        exists n. congruence.
    + intros [n Hn]. exists (S (n + n1 + n2)). simpl.
      rewrite (closest_mono d sel n1 (n + n1 + n2) _ _ ltac:(lia) H1).
      rewrite (enclosingShadowHost_mono d n2 (n + n1 + n2) _ _ ltac:(lia) H2).
      apply (closestCrossShadow_mono d sel n); [ lia | exact Hn ].
  - destruct (closestCrossShadow_terminates d sel Hwf (Some e)) as [r [n Hn]].
    exists r. split; [ exists n; exact Hn | ].
    pose proof (closestCrossShadow_result d sel n e r Hn) as Hr.
    split; [ split | ].
    + intros ->. exact Hr.
    + intros Hnone. destruct r as [a |]; [ | reflexivity ].
      destruct Hr as [Ha Hm]. rewrite (Hnone a Ha) in Hm. discriminate.
    + intros a ->. exact Hr.
Qed.

(** On the sample page the element [6] sits in a shadow tree without any
    DIV; the search escapes to the host [3], which is one. *)
Lemma closestCrossShadow_result_across_hosts_witness :
  Acyclic (Sample.page false) /\
  closest (Sample.page false) 10 6 "DIV" = Some None /\
  closestCrossShadow (Sample.page false) 10 (Some 6) "DIV" = Some (Some 3) /\
  closestCrossShadow (Sample.page false) 10 (Some 6) "P" = Some None /\
  exists r, returns (fun n => closestCrossShadow (Sample.page false) n (Some 6) "DIV") r /\
     (r = None <->
      forall a, crossAncestor (Sample.page false) 6 a ->
                matches (Sample.page false) a "DIV" = false) /\
     (forall a, r = Some a ->
        crossAncestor (Sample.page false) 6 a /\ matches (Sample.page false) a "DIV" = true).
Proof.
  split; [ apply page_acyclic | ].
  split; [ vm_compute; reflexivity | ].
  split; [ vm_compute; reflexivity | ].
  split; [ vm_compute; reflexivity | ].
  apply (closestCrossShadow_result_across_hosts (Sample.page false) 6 "DIV").
  apply page_acyclic.
Defined.

(** C8: when parent links and shadow-host chains are acyclic, every call of
    [isInsideScope] and of [closestCrossShadow] returns. *)
Theorem traversal_loops_terminate (d : Dom) :
  Acyclic d ->
  forall (scope : Node) (element : option Node) (css : string),
    (exists b, returns (fun n => isInsideScope d n scope element) b) /\
    (exists r, returns (fun n => closestCrossShadow d n element css) r).
Proof.
  intros Hwf scope element css. split.
  - apply isInsideScope_terminates, Hwf.
  - apply closestCrossShadow_terminates, Hwf.
Qed.

Lemma traversal_loops_terminate_witness :
  Acyclic (Sample.page true) /\
  forall (scope : Node) (element : option Node) (css : string),
    (exists b, returns (fun n => isInsideScope (Sample.page true) n scope element) b) /\
    (exists r, returns (fun n => closestCrossShadow (Sample.page true) n element css) r).
Proof.
  split; [ apply page_acyclic | ].
  apply (traversal_loops_terminate (Sample.page true)), page_acyclic.
Defined.

(** C9, as stated, fails: on the sample page the root of the element [12]
    is the plain document fragment [11], which has no host and is no
    Document, and it is returned all the same. *)
Lemma plain_fragment_root_is_returned :
  ~ returns_root_iff_document_or_shadow_root (Sample.page true) 12.
Proof.
  intros H.
  assert (Hroot : rootOf (Sample.page true) 12 11)
    by (eapply rootOf_up; [ reflexivity | apply rootOf_here; reflexivity ]).
  destruct (H 11 Hroot) as [Hret _].
  destruct Hret as [Hd | [_ Hh]].
  - exists 2. reflexivity.
  - discriminate Hd.
  - apply Hh. reflexivity.
Qed.

(** C9, amended: on an acyclic store [enclosingShadowRootOrDocument]
    returns; it walks the parent-node links to the ultimate root and returns
    that root exactly when its node type is Document or document fragment,
    whether or not the fragment has a host, and none for any other root. *)
Theorem enclosingShadowRootOrDocument_root_kind (d : Dom) (e : Node) :
  Acyclic d ->
  exists root r,
    rootOf d e root /\
    returns (fun n => enclosingShadowRootOrDocument d n e) r /\
    (r = Some root <-> isDocument d root \/ isDocumentFragment d root) /\
    (r = None <-> ~ (isDocument d root \/ isDocumentFragment d root)).
Proof.
  intros Hwf.
  destruct (enclosingShadowRootOrDocument_terminates d e (Hwf e)) as [root [Hroot Hret]].
  exists root. eexists. split; [ exact Hroot | ]. split; [ exact Hret | ].
  assert (Hkind : (nodeType d root =? DOCUMENT_FRAGMENT_NODE)
                  || (nodeType d root =? DOCUMENT_NODE) = true <->
                  isDocument d root \/ isDocumentFragment d root).
  { unfold isDocument, isDocumentFragment.
    rewrite orb_true_iff, !Nat.eqb_eq. tauto. }
  destruct ((nodeType d root =? DOCUMENT_FRAGMENT_NODE)
            || (nodeType d root =? DOCUMENT_NODE)) eqn:Hb.
  - split; split; intros H; try reflexivity; try discriminate.
    + apply Hkind. reflexivity.
    + exfalso. apply H, Hkind. reflexivity.
  - split; split; intros H; try reflexivity; try discriminate.
    + apply Hkind in H. discriminate.
    + intros H'. apply Hkind in H'. discriminate.
Qed.

Lemma enclosingShadowRootOrDocument_root_kind_witness :
  Acyclic (Sample.page true) /\
  enclosingShadowRootOrDocument (Sample.page true) 10 7 = Some (Some 4) /\
  enclosingShadowRootOrDocument (Sample.page true) 10 12 = Some (Some 11) /\
  enclosingShadowRootOrDocument (Sample.page true) 10 13 = Some None /\
  exists root r,
    rootOf (Sample.page true) 12 root /\
    returns (fun n => enclosingShadowRootOrDocument (Sample.page true) n 12) r /\
    (r = Some root <->
     isDocument (Sample.page true) root \/ isDocumentFragment (Sample.page true) root) /\
    (r = None <->
     ~ (isDocument (Sample.page true) root \/ isDocumentFragment (Sample.page true) root)).
Proof.
  split; [ apply page_acyclic | ].
  split; [ vm_compute; reflexivity | ].
  split; [ vm_compute; reflexivity | ].
  split; [ vm_compute; reflexivity | ].
  apply (enclosingShadowRootOrDocument_root_kind (Sample.page true) 12), page_acyclic.
Defined.

(** ** Style accessor and style visibility: the stated properties *)

(** C1, as stated, fails twice on the sample page without [checkVisibility].
    The span [5] lives in the shadow tree of a host inside the collapsed
    details [2]: [closestCrossShadow] finds [2], the source's native
    [closest] stops at the shadow boundary, and the verdict is true.  The
    element [8] has no details ancestor at all and CSS visibility hidden:
    the verdict is false. *)
Lemma details_fallback_stays_in_local_tree :
  ~ details_fallback_crosses_shadow (Sample.page false) 5 /\
  ~ details_fallback_crosses_shadow (Sample.page false) 8.
Proof.
  assert (Hmono : forall e, monotone
            (fun n => isElementStyleVisibilityVisible (Sample.page false) n e None))
    by (intros e n m r Hle; apply isElementStyleVisibilityVisible_mono, Hle).
  split; intros H.
  - destruct (H eq_refl (mkStyle "inline" "visible") (Some 2) eq_refl) as [_ Hf].
    + exists 10. reflexivity.
    + assert (Habs : false = true); [ | discriminate Habs ].
      apply (returns_unique _ _ _ (Hmono 5)); [ apply Hf; reflexivity | ].
      exists 10. reflexivity.
  - destruct (H eq_refl (mkStyle "contents" "hidden") None eq_refl) as [Hf _].
    + exists 10. reflexivity.
    + discriminate Hf. exists 10. reflexivity.
Qed.

(** C1, amended: without [checkVisibility] and with a resolved style, the
    check looks for the nearest details-or-summary inclusive ancestor with
    the native [closest], inside the element's own tree only; it returns
    false exactly when that ancestor is a collapsed details element other
    than the element or the CSS visibility is not visible, and true
    otherwise. *)
Theorem details_fallback_uses_local_closest (d : Dom) (e : Node) (st : CSSStyleDeclaration) :
  Acyclic d ->
  hasCheckVisibility d = false ->
  getElementComputedStyle d e None = Some st ->
  exists a,
    returns (fun n => closest d n e "details,summary") a /\
    match a with
    | Some x => localAncestor d e x /\ matches d x "details,summary" = true
    | None => forall x, localAncestor d e x -> matches d x "details,summary" = false
    end /\
    (returns (fun n => isElementStyleVisibilityVisible d n e None) false <->
     closedDetailsAbove d e a = true \/ visibility st <> "visible") /\
    (returns (fun n => isElementStyleVisibilityVisible d n e None) true <->
     closedDetailsAbove d e a = false /\ visibility st = "visible").
Proof.
  intros Hwf Hcv Hst.
  destruct (closest_terminates d e "details,summary" (Hwf e)) as [a [n Hn]].
  exists a. split; [ exists n; exact Hn | ].
  split; [ exact (closest_result d _ _ _ _ Hn) | ].
  assert (Hval : forall m b, isElementStyleVisibilityVisible d m e None = Some b ->
            b = negb (closedDetailsAbove d e a) && (visibility st =? "visible")%string).
  { intros m b. unfold isElementStyleVisibilityVisible. rewrite Hst, Hcv.
    destruct (closest d m e "details,summary") as [a' |] eqn:Hm; [ | discriminate ].
    apply (closest_mono d _ m (m + n)) in Hm; [ | lia ].
    apply (closest_mono d _ n (m + n)) in Hn; [ | lia ].
    assert (a' = a) by congruence. subst a'.
    destruct (closedDetailsAbove d e a); intros [= <-]; reflexivity. }
  assert (Hret : returns (fun m => isElementStyleVisibilityVisible d m e None)
            (negb (closedDetailsAbove d e a) && (visibility st =? "visible")%string)).
  { exists n. unfold isElementStyleVisibilityVisible. rewrite Hst, Hcv, Hn.
    destruct (closedDetailsAbove d e a); reflexivity. }
  destruct (closedDetailsAbove d e a);
    destruct (visibility st =? "visible")%string eqn:Hv; simpl in *;
    rewrite ?String.eqb_eq, ?String.eqb_neq in Hv.
  all: split; split;
    try (intros [m Hm]; apply Hval in Hm; discriminate Hm);
    try (intros _; exact Hret);
    try (intros [Hx | Hx]; congruence);
    try (intros [Hx Hy]; congruence);
    auto.
Qed.

Lemma details_fallback_uses_local_closest_witness :
  Acyclic (Sample.page false) /\
  hasCheckVisibility (Sample.page false) = false /\
  getElementComputedStyle (Sample.page false) 3 None = Some (mkStyle "block" "visible") /\
  isElementStyleVisibilityVisible (Sample.page false) 10 3 None = Some false /\
  isElementStyleVisibilityVisible (Sample.page false) 10 2 None = Some true /\
  exists a,
    returns (fun n => closest (Sample.page false) n 3 "details,summary") a /\
    match a with
    | Some x => localAncestor (Sample.page false) 3 x /\
                matches (Sample.page false) x "details,summary" = true
    | None => forall x, localAncestor (Sample.page false) 3 x ->
                matches (Sample.page false) x "details,summary" = false
    end /\
    (returns (fun n => isElementStyleVisibilityVisible (Sample.page false) n 3 None) false <->
     closedDetailsAbove (Sample.page false) 3 a = true \/ "visible" <> "visible") /\
    (returns (fun n => isElementStyleVisibilityVisible (Sample.page false) n 3 None) true <->
     closedDetailsAbove (Sample.page false) 3 a = false /\ "visible" = "visible").
Proof.
  split; [ apply page_acyclic | ].
  split; [ reflexivity | ].
  split; [ reflexivity | ].
  split; [ vm_compute; reflexivity | ].
  split; [ vm_compute; reflexivity | ].
  apply (details_fallback_uses_local_closest (Sample.page false) 3
           (mkStyle "block" "visible") (page_acyclic false) eq_refl eq_refl).
Defined.

(** C4, as stated, fails in its last clause: the never-attached element [1]
    has no parent node, but it has an owner document with a view, so its
    style resolves (to empty values) and the ordinary checks run; with the
    native check as with the fallback, [isElementVisible] returns false. *)
Lemma detached_element_is_judged :
  ~ detached_is_never_hidden (Offscreen.page true) 1 /\
  ~ detached_is_never_hidden (Offscreen.page false) 1.
Proof.
  split; intros H; apply (H eq_refl 10); vm_compute; reflexivity.
Qed.

(** C4, amended: [getElementComputedStyle] returns none exactly when the
    element has no owner document or that document has no default view;
    and in that case, where the style cannot be resolved,
    [isElementStyleVisibilityVisible] and [isElementVisible] return true
    and never false.  Nothing is promised for an element that is only
    detached from the tree. *)
Theorem missing_style_fails_open (d : Dom) (e : Node) :
  (forall pseudo,
     getElementComputedStyle d e pseudo = None <->
     ownerDocument d e = None \/
     exists doc, ownerDocument d e = Some doc /\ defaultView d doc = None) /\
  (getElementComputedStyle d e None = None ->
     (forall n, isElementStyleVisibilityVisible d n e None = Some true) /\
     (forall n, isElementVisible d (S n) e = Some true) /\
     (forall n, isElementVisible d n e <> Some false)).
Proof.
  split.
  - intros pseudo. unfold getElementComputedStyle.
    destruct (ownerDocument d e) as [doc |]; [ | tauto ].
    destruct (defaultView d doc) as [v |] eqn:Hv.
    + split; [ discriminate | ].
      intros [H | [doc' [[= <-] H]]]; congruence.
    + split; [ | reflexivity ]. intros _. right. exists doc. auto.
  - intros Hst. split; [ | split ].
    + intros n. unfold isElementStyleVisibilityVisible. rewrite Hst. reflexivity.
    + intros n. rewrite isElementVisible_unfold, Hst. reflexivity.
    + intros [| n]; [ discriminate | ].
      rewrite isElementVisible_unfold, Hst. discriminate.
Qed.

(** The body [3] of a document without a view: its style cannot be
    resolved, and it is reported visible. *)
Lemma missing_style_fails_open_witness :
  ownerDocument (Offscreen.page true) 3 = Some 2 /\
  defaultView (Offscreen.page true) 2 = None /\
  getElementComputedStyle (Offscreen.page true) 3 None = None /\
  (forall n, isElementStyleVisibilityVisible (Offscreen.page true) n 3 None = Some true) /\
  (forall n, isElementVisible (Offscreen.page true) (S n) 3 = Some true) /\
  (forall n, isElementVisible (Offscreen.page true) n 3 <> Some false).
Proof.
  split; [ reflexivity | ].
  split; [ reflexivity | ].
  split; [ reflexivity | ].
  apply (proj2 (missing_style_fails_open (Offscreen.page true) 3)).
  reflexivity.
Defined.

(** ** Element visibility: the stated properties *)

(** C2: for an element whose resolved display is contents,
    [isElementVisible] returns, and it returns true exactly when some
    direct child is an element for which [isElementVisible] returns true or
    a text node whose range box has positive width and height. *)
Theorem contents_visible_iff_child_visible (d : Dom) (e : Node) (st : CSSStyleDeclaration) :
  FiniteTree d ->
  getElementComputedStyle d e None = Some st ->
  display st = "contents" ->
  exists b, returns (fun n => isElementVisible d n e) b /\
    (b = true <->
     exists c, In c (childNodes d e) /\
       ((nodeType d c = ELEMENT_NODE /\ returns (fun n => isElementVisible d n c) true) \/
        (nodeType d c = TEXT_NODE /\
         (0 < width (rangeRect d c))%Q /\ (0 < height (rangeRect d c))%Q))).
Proof.
  intros Hft Hst Hd.
  destruct (contents_verdict d e st Hft Hst Hd) as [b [Hret Hiff]].
  exists b. split; [ exact Hret | ].
  rewrite Hiff. split; intros [c [Hin Hc]]; exists c; (split; [ exact Hin | ]);
    (destruct Hc as [He | [Ht Hv]]; [ left; exact He | right; split; [ exact Ht | ] ]).
  - unfold isVisibleTextNode in Hv. apply andb_true_iff in Hv.
    rewrite !gt0_iff in Hv. exact Hv.
  - unfold isVisibleTextNode. apply andb_true_iff. rewrite !gt0_iff. exact Hv.
Qed.

(** On the sample page the [display:contents] element [8] has the visible
    text [9] as a child. *)
Lemma contents_visible_iff_child_visible_witness :
  FiniteTree (Sample.page true) /\
  getElementComputedStyle (Sample.page true) 8 None = Some (mkStyle "contents" "hidden") /\
  isElementVisible (Sample.page true) 10 8 = Some true /\
  exists b, returns (fun n => isElementVisible (Sample.page true) n 8) b /\
    (b = true <->
     exists c, In c (childNodes (Sample.page true) 8) /\
       ((nodeType (Sample.page true) c = ELEMENT_NODE /\
         returns (fun n => isElementVisible (Sample.page true) n c) true) \/
        (nodeType (Sample.page true) c = TEXT_NODE /\
         (0 < width (rangeRect (Sample.page true) c))%Q /\
         (0 < height (rangeRect (Sample.page true) c))%Q))).
Proof.
  split; [ apply page_finite | ].
  split; [ reflexivity | ].
  split; [ vm_compute; reflexivity | ].
  apply (contents_visible_iff_child_visible (Sample.page true) 8
           (mkStyle "contents" "hidden") (page_finite true) eq_refl eq_refl).
Defined.

(** C3: for an element that passes the style check, whose display is inline
    and whose box has a width that is not positive and a positive height,
    [isElementVisible] returns, and it returns true exactly when some direct
    element child has resolved display inline and is itself visible. *)
Theorem inline_quirk_iff_inline_child_visible (d : Dom) (e : Node) (st : CSSStyleDeclaration) :
  FiniteTree d ->
  getElementComputedStyle d e None = Some st ->
  display st = "inline" ->
  returns (fun n => isElementStyleVisibilityVisible d n e (Some st)) true ->
  ~ (0 < width (getBoundingClientRect d e))%Q ->
  (0 < height (getBoundingClientRect d e))%Q ->
  exists b, returns (fun n => isElementVisible d n e) b /\
    (b = true <->
     exists c, In c (childNodes d e) /\
       nodeType d c = ELEMENT_NODE /\
       (exists cs, getElementComputedStyle d c None = Some cs /\ display cs = "inline") /\
       returns (fun n => isElementVisible d n c) true).
Proof.
  intros Hft Hst Hd [k Hk] Hw Hh.
  destruct (isElementVisible_terminates d Hft e) as [b [n Hn]].
  exists b. split; [ exists n; exact Hn | ].
  destruct n as [| n]; [ discriminate | ].
  rewrite isElementVisible_unfold, Hst, Hd in Hn. simpl in Hn.
  destruct (isElementStyleVisibilityVisible d n e (Some st)) as [sv |] eqn:Hs;
    [ | discriminate ].
  assert (sv = true).
  { apply (isElementStyleVisibilityVisible_mono d n (n + k)) in Hs; [ | lia ].
    apply (isElementStyleVisibilityVisible_mono d k (n + k)) in Hk; [ | lia ].
    congruence. }
  subst sv.
  apply gt0_iff in Hh. rewrite Hh in Hn.
  assert (Hw' : gt0 (width (getBoundingClientRect d e)) = false).
  { destruct (gt0 (width (getBoundingClientRect d e))) eqn:Hg; [ | reflexivity ].
    apply gt0_iff in Hg. contradiction. }
  rewrite Hw' in Hn. simpl in Hn.
  apply anyChild_result in Hn. destruct b.
  - split; [ intros _ | reflexivity ].
    destruct Hn as [c [Hin Hc]]. exists c. split; [ exact Hin | ].
    apply inlineChild_true in Hc. destruct Hc as [He [Hcs Hv]].
    repeat split; try assumption. exists n. exact Hv.
  - split; [ discriminate | ].
    intros [c [Hin [He [Hcs [j Hj]]]]]. specialize (Hn c Hin).
    assert (Hc : inlineChild d (n + j) c = Some true).
    { apply inlineChild_true. repeat split; try assumption.
      apply (isElementVisible_mono d j); [ lia | exact Hj ]. }
    apply (inlineChild_mono d n (n + j)) in Hn; [ congruence | lia ].
Qed.

(** On the sample page the inline span [5] has a box of width 0 and height
    10, and its inline child [6] is visible. *)
Lemma inline_quirk_iff_inline_child_visible_witness :
  FiniteTree (Sample.page false) /\
  getElementComputedStyle (Sample.page false) 5 None = Some (mkStyle "inline" "visible") /\
  isElementStyleVisibilityVisible (Sample.page false) 10 5
    (Some (mkStyle "inline" "visible")) = Some true /\
  isElementVisible (Sample.page false) 10 5 = Some true /\
  exists b, returns (fun n => isElementVisible (Sample.page false) n 5) b /\
    (b = true <->
     exists c, In c (childNodes (Sample.page false) 5) /\
       nodeType (Sample.page false) c = ELEMENT_NODE /\
       (exists cs, getElementComputedStyle (Sample.page false) c None = Some cs /\
                   display cs = "inline") /\
       returns (fun n => isElementVisible (Sample.page false) n c) true).
Proof.
  split; [ apply page_finite | ].
  split; [ reflexivity | ].
  split; [ vm_compute; reflexivity | ].
  split; [ vm_compute; reflexivity | ].
  apply (inline_quirk_iff_inline_child_visible (Sample.page false) 5
           (mkStyle "inline" "visible") (page_finite false) eq_refl eq_refl).
  - exists 10. vm_compute. reflexivity.
  - vm_compute. discriminate.
  - vm_compute. reflexivity.
Defined.

(** C7, as stated, fails: on the sample page with [checkVisibility], the
    element [3] has a 10 by 10 box and CSS visibility visible, the native
    check reports it not rendered, and [isElementVisible] returns false. *)
Lemma positive_box_not_rendered_is_hidden :
  ~ positive_box_and_visible_css_suffice (Sample.page true) 3.
Proof.
  intros H.
  assert (Habs : true = false); [ | discriminate Habs ].
  apply (returns_unique (fun n => isElementVisible (Sample.page true) n 3)).
  - intros n m r Hle. apply isElementVisible_mono, Hle.
  - apply (H (mkStyle "block" "visible")); reflexivity.
  - exists 10. vm_compute. reflexivity.
Qed.

(** C7, amended: an element whose resolved display is not contents, that
    passes the style check, and whose box has positive width and height, is
    reported visible. *)
Theorem positive_box_and_style_check_suffice (d : Dom) (e : Node) (st : CSSStyleDeclaration) :
  getElementComputedStyle d e None = Some st ->
  display st <> "contents" ->
  returns (fun n => isElementStyleVisibilityVisible d n e (Some st)) true ->
  (0 < width (getBoundingClientRect d e))%Q ->
  (0 < height (getBoundingClientRect d e))%Q ->
  visibility st = "visible" /\
  returns (fun n => isElementVisible d n e) true.
Proof.
  intros Hst Hd [k Hk] Hw Hh. split.
  - unfold isElementStyleVisibilityVisible in Hk.
    destruct (hasCheckVisibility d).
    + destruct (negb (checkVisibility d e)); [ discriminate | ].
      injection Hk as Hk. apply String.eqb_eq, Hk.
    + destruct (closest d k e "details,summary") as [a |]; [ | discriminate ].
      destruct (closedDetailsAbove d e a); [ discriminate | ].
      injection Hk as Hk. apply String.eqb_eq, Hk.
  - exists (S k). rewrite isElementVisible_unfold, Hst.
    apply String.eqb_neq in Hd. rewrite Hd, Hk.
    apply gt0_iff in Hw, Hh. cbv zeta. rewrite Hw, Hh. reflexivity.
Qed.

Lemma positive_box_and_style_check_suffice_witness :
  getElementComputedStyle (Sample.page true) 1 None = Some (mkStyle "block" "visible") /\
  isElementStyleVisibilityVisible (Sample.page true) 10 1
    (Some (mkStyle "block" "visible")) = Some true /\
  "visible" = "visible" /\
  returns (fun n => isElementVisible (Sample.page true) n 1) true.
Proof.
  split; [ reflexivity | ].
  split; [ vm_compute; reflexivity | ].
  apply (positive_box_and_style_check_suffice (Sample.page true) 1
           (mkStyle "block" "visible") eq_refl).
  - vm_compute. discriminate.
  - exists 10. vm_compute. reflexivity.
  - vm_compute. reflexivity.
  - vm_compute. reflexivity.
Defined.

Lemma anyChild_ext (t1 t2 : Node -> option bool) :
  (forall c, t1 c = t2 c) -> forall l, anyChild t1 l = anyChild t2 l.
Proof.
  intros Ht l. induction l as [| c l IH]; simpl; [ reflexivity | ].
  rewrite Ht, IH. reflexivity.
Qed.

Section OwnVisibility.

Variables (d : Dom) (e : Node) (vis : string) (chk : bool).

Local Abbreviation d' := (withOwnVisibility d e vis chk).

Lemma own_style x pseudo :
  getElementComputedStyle d' x pseudo =
  match getElementComputedStyle d x pseudo with
  | Some s => Some (if x =? e then mkStyle (display s) vis else s)
  | None => None
  end.
Proof.
  unfold getElementComputedStyle. simpl.
  destruct (ownerDocument d x) as [doc |]; [ | reflexivity ].
  destruct (defaultView d doc); [ | reflexivity ].
  destruct (x =? e); reflexivity.
Qed.

Lemma own_style_display x pseudo :
  option_map display (getElementComputedStyle d' x pseudo) =
  option_map display (getElementComputedStyle d x pseudo).
Proof.
  rewrite own_style. destruct (getElementComputedStyle d x pseudo); [ | reflexivity ].
  destruct (x =? e); reflexivity.
Qed.

Lemma own_style_check n x st :
  x <> e ->
  isElementStyleVisibilityVisible d' n x (Some st) =
  isElementStyleVisibilityVisible d n x (Some st).
Proof.
  intros Hx. apply Nat.eqb_neq in Hx.
  unfold isElementStyleVisibilityVisible. simpl. rewrite Hx. reflexivity.
Qed.

Lemma own_visibility_unread :
  (forall st, getElementComputedStyle d e None = Some st -> display st = "contents") ->
  forall n x, isElementVisible d' n x = isElementVisible d n x.
Proof.
  intros Hcontents. induction n as [| n IH]; intros x; [ reflexivity | ].
  rewrite !isElementVisible_unfold.
  assert (Hc1 : forall c, contentsChild d' n c = contentsChild d n c).
  { intros c. unfold contentsChild, isVisibleTextNode. simpl. rewrite IH. reflexivity. }
  assert (Hc2 : forall c, inlineChild d' n c = inlineChild d n c).
  { intros c. unfold inlineChild. simpl.
    pose proof (own_style_display c None) as Hdisp.
    destruct (getElementComputedStyle d' c None) as [cs' |];
      destruct (getElementComputedStyle d c None) as [cs |];
      simpl in Hdisp; try discriminate; [ | reflexivity ].
    injection Hdisp as ->. rewrite IH. reflexivity. }
  rewrite own_style.
  destruct (getElementComputedStyle d x None) as [st |] eqn:Hst; [ | reflexivity ].
  destruct (x =? e) eqn:Hx.
  - apply Nat.eqb_eq in Hx. subst x. simpl.
    rewrite (Hcontents st Hst). simpl.
    apply anyChild_ext, Hc1.
  - apply Nat.eqb_neq in Hx.
    rewrite (own_style_check n x st Hx).
    rewrite (anyChild_ext _ _ Hc1), (anyChild_ext _ _ Hc2). reflexivity.
Qed.

End OwnVisibility.

(** C10: for an element whose resolved display is contents, the verdict of
    [isElementVisible] is the same whatever the element's own CSS visibility
    value and its own native-check verdict are; and a text child with a
    positive range box makes it true, with no condition on style visibility
    or on any ancestor. *)
Theorem contents_skips_style_check (d : Dom) (e : Node) (st : CSSStyleDeclaration) :
  FiniteTree d ->
  getElementComputedStyle d e None = Some st ->
  display st = "contents" ->
  (forall vis chk n,
     isElementVisible (withOwnVisibility d e vis chk) n e = isElementVisible d n e) /\
  (forall c, In c (childNodes d e) ->
     nodeType d c = TEXT_NODE ->
     isVisibleTextNode d c = true ->
     returns (fun n => isElementVisible d n e) true).
Proof.
  intros Hft Hst Hd. split.
  - intros vis chk n. apply own_visibility_unread.
    intros st' Hst'. congruence.
  - intros c Hin Ht Hv.
    destruct (contents_verdict d e st Hft Hst Hd) as [b [Hret Hiff]].
    assert (b = true) by (apply Hiff; exists c; auto).
    subst b. exact Hret.
Qed.

(** On the sample page the [display:contents] element [8] has CSS visibility
    hidden and the visible text child [9]: it is reported visible, while its
    own style check is false. *)
Lemma contents_skips_style_check_witness :
  FiniteTree (Sample.page false) /\
  getElementComputedStyle (Sample.page false) 8 None = Some (mkStyle "contents" "hidden") /\
  isElementStyleVisibilityVisible (Sample.page false) 10 8 None = Some false /\
  (forall vis chk n,
     isElementVisible (withOwnVisibility (Sample.page false) 8 vis chk) n 8 =
     isElementVisible (Sample.page false) n 8) /\
  returns (fun n => isElementVisible (Sample.page false) n 8) true.
Proof.
  split; [ apply page_finite | ].
  split; [ reflexivity | ].
  split; [ vm_compute; reflexivity | ].
  destruct (contents_skips_style_check (Sample.page false) 8
              (mkStyle "contents" "hidden") (page_finite false) eq_refl eq_refl)
    as [Hsame Htext].
  split; [ exact Hsame | ].
  apply (Htext 9); [ simpl; auto | reflexivity | vm_compute; reflexivity ].
Defined.

(** ** Further properties of the shadow traversal *)

Section TraversalFacts.

Variable d : Dom.

Lemma enclosingShadowHost_monotone e :
  monotone (fun n => enclosingShadowHost d n e).
Proof. intros n m r Hle. apply enclosingShadowHost_mono, Hle. Qed.

Lemma contains_monotone scope e : monotone (fun n => contains d n scope e).
Proof. intros n m r Hle. apply contains_mono, Hle. Qed.

Lemma closest_monotone e css : monotone (fun n => closest d n e css).
Proof. intros n m r Hle. apply closest_mono, Hle. Qed.

Lemma isInsideScope_monotone scope e :
  monotone (fun n => isInsideScope d n scope e).
Proof. intros n m r Hle. apply isInsideScope_mono, Hle. Qed.

Lemma contains_true_above scope :
  forall n x, contains d n scope x = Some true ->
    clos_refl_trans Node (above d) scope x.
Proof.
  induction n as [| n IH]; simpl; intros x H; [ discriminate | ].
  destruct (scope =? x) eqn:Hx.
  - apply Nat.eqb_eq in Hx. subst. apply rt_refl.
  - destruct (parentNode d x) as [p |] eqn:Hp; [ | discriminate ].
    apply rt_trans with p; [ apply IH, H | apply rt_step; left; exact Hp ].
Qed.

Lemma contains_trans outer scope :
  returns (fun n => contains d n outer scope) true ->
  forall n x, contains d n scope x = Some true ->
    returns (fun k => contains d k outer x) true.
Proof.
  intros Ho. induction n as [| n IH]; simpl; intros x H; [ discriminate | ].
  destruct (scope =? x) eqn:Hx.
  - apply Nat.eqb_eq in Hx. subst. exact Ho.
  - destruct (parentNode d x) as [p |] eqn:Hp; [ | discriminate ].
    destruct (IH p H) as [k Hk]. exists (S k). simpl.
    destruct (outer =? x); [ reflexivity | ]. rewrite Hp. exact Hk.
Qed.

Lemma hostChain_above e e' :
  hostChain d e e' -> clos_refl_trans Node (above d) e' e.
Proof.
  induction 1 as [e | e h e' [n Hn] _ IH]; [ apply rt_refl | ].
  apply rt_trans with h; [ exact IH | ].
  apply clos_t_clos_rt. eapply enclosingShadowHost_above, Hn.
Qed.

Lemma acyclic_irreflexive : Acyclic d -> forall x, ~ clos_trans Node (above d) x x.
Proof.
  intros Hwf x.
  induction (wf_clos_trans Node (above d) Hwf x) as [x _ IH].
  intros H. exact (IH x H H).
Qed.

Lemma crossAncestor_above e a :
  crossAncestor d e a -> clos_refl_trans Node (above d) a e.
Proof.
  induction 1 as [e | e p a Hp _ IH]; [ apply rt_refl | ].
  apply rt_trans with p; [ exact IH | ].
  apply clos_t_clos_rt, parentElementOrShadowHost_above, Hp.
Qed.

Lemma crossAncestor_chain e a :
  crossAncestor d e a ->
  exists e', hostChain d e e' /\ returns (fun n => contains d n a e') true.
Proof.
  induction 1 as [e | e p a Hp _ [e' [Hch Hc]]].
  - exists e. split; [ apply hostChain_refl | ].
    exists 1. simpl. rewrite Nat.eqb_refl. reflexivity.
  - destruct (parentElement d e) as [q |] eqn:Hq.
    + rewrite (parentElement_cross d _ _ Hq) in Hp. injection Hp as ->.
      inversion Hch as [x | x h y [n Hn] Hrest]; subst.
      * exists e. split; [ apply hostChain_refl | ].
        destruct Hc as [k Hk]. exists (S k). simpl.
        destruct (a =? e); [ reflexivity | ].
        rewrite (parentElement_parentNode d _ _ Hq). exact Hk.
      * exists e'. split; [ | exact Hc ].
        eapply hostChain_step; [ | exact Hrest ].
        exists (S n). simpl. rewrite Hq. exact Hn.
    + exists e'. split; [ | exact Hc ].
      eapply hostChain_step; [ | exact Hch ].
      exists 1. simpl. rewrite Hq, Hp. reflexivity.
Qed.



End TraversalFacts.

(** X1: for an element with no enclosing shadow host, [isInsideScope] is
    plain DOM containment: it returns what [contains] returns. *)
Theorem isInsideScope_without_host_is_contains (d : Dom) (scope e : Node) :
  returns (fun n => enclosingShadowHost d n e) None ->
  forall b,
    returns (fun n => isInsideScope d n scope (Some e)) b <->
    returns (fun n => contains d n scope e) b.
Proof.
  intros Hh b. split.
  - intros [n Hn]. destruct n as [| n]; [ discriminate | ]. simpl in Hn.
    destruct (contains d n scope e) as [[|] |] eqn:Hc; try discriminate.
    + injection Hn as <-. exists n. exact Hc.
    + destruct (enclosingShadowHost d n e) as [x |] eqn:Hx; [ | discriminate ].
      assert (x = None).
      { apply (returns_unique _ _ _ (enclosingShadowHost_monotone d e));
          [ exists n; exact Hx | exact Hh ]. }
      subst x. destruct n as [| n]; [ discriminate | ].
      simpl in Hn. injection Hn as <-. exists (S n). exact Hc.
  - intros [k Hk]. destruct Hh as [j Hj]. exists (S (S (k + j))).
    cbn [isInsideScope].
    rewrite (contains_mono d scope k (S (k + j)) e b ltac:(lia) Hk).
    destruct b; [ reflexivity | ].
    rewrite (enclosingShadowHost_mono d j (S (k + j)) e None ltac:(lia) Hj).
    reflexivity.
Qed.

Lemma isInsideScope_without_host_is_contains_witness :
  enclosingShadowHost (Sample.page true) 10 8 = Some None /\
  contains (Sample.page true) 10 2 8 = Some false /\
  (returns (fun n => isInsideScope (Sample.page true) n 2 (Some 8)) false <->
   returns (fun n => contains (Sample.page true) n 2 8) false).
Proof.
  split; [ vm_compute; reflexivity | ].
  split; [ vm_compute; reflexivity | ].
  apply (isInsideScope_without_host_is_contains (Sample.page true) 2 8).
  exists 10. vm_compute. reflexivity.
Defined.

(** X2: for an element with no enclosing shadow host, [closestCrossShadow]
    is the native [closest]: it returns what [closest] returns. *)
Theorem closestCrossShadow_without_host_is_closest (d : Dom) (e : Node) (css : string) :
  returns (fun n => enclosingShadowHost d n e) None ->
  forall r,
    returns (fun n => closestCrossShadow d n (Some e) css) r <->
    returns (fun n => closest d n e css) r.
Proof.
  intros Hh r. split.
  - intros [n Hn]. destruct n as [| n]; [ discriminate | ]. simpl in Hn.
    destruct (closest d n e css) as [[c |] |] eqn:Hc; try discriminate.
    + injection Hn as <-. exists n. exact Hc.
    + destruct (enclosingShadowHost d n e) as [x |] eqn:Hx; [ | discriminate ].
      assert (x = None).
      { apply (returns_unique _ _ _ (enclosingShadowHost_monotone d e));
          [ exists n; exact Hx | exact Hh ]. }
      subst x. destruct n as [| n]; [ discriminate | ].
      simpl in Hn. injection Hn as <-. exists (S n). exact Hc.
  - intros [k Hk]. destruct Hh as [j Hj]. exists (S (S (k + j))).
    cbn [closestCrossShadow].
    rewrite (closest_mono d css k (S (k + j)) e r ltac:(lia) Hk).
    destruct r; [ reflexivity | ].
    rewrite (enclosingShadowHost_mono d j (S (k + j)) e None ltac:(lia) Hj).
    reflexivity.
Qed.

Lemma closestCrossShadow_without_host_is_closest_witness :
  enclosingShadowHost (Sample.page true) 10 8 = Some None /\
  closest (Sample.page true) 10 8 "BODY" = Some (Some 1) /\
  (returns (fun n => closestCrossShadow (Sample.page true) n (Some 8) "BODY") (Some 1) <->
   returns (fun n => closest (Sample.page true) n 8 "BODY") (Some 1)).
Proof.
  split; [ vm_compute; reflexivity | ].
  split; [ vm_compute; reflexivity | ].
  apply (closestCrossShadow_without_host_is_closest (Sample.page true) 8 "BODY").
  exists 10. vm_compute. reflexivity.
Defined.

(** X3: [isInsideScope] is closed upwards in the scope: an element inside a
    scope is inside every scope that DOM-contains that scope. *)
Theorem isInsideScope_in_enclosing_scope (d : Dom) (outer scope e : Node) :
  Acyclic d ->
  returns (fun n => contains d n outer scope) true ->
  returns (fun n => isInsideScope d n scope (Some e)) true ->
  returns (fun n => isInsideScope d n outer (Some e)) true.
Proof.
  intros Hwf Ho [n Hn].
  destruct (isInsideScope_true_chain d scope n e Hn) as [e' [Hch [k Hk]]].
  apply (chain_isInsideScope_true d outer Hwf e e' Hch).
  exact (contains_trans d outer scope Ho k e' Hk).
Qed.

Lemma isInsideScope_in_enclosing_scope_witness :
  Acyclic (Sample.page true) /\
  contains (Sample.page true) 10 1 3 = Some true /\
  isInsideScope (Sample.page true) 10 3 (Some 7) = Some true /\
  returns (fun n => isInsideScope (Sample.page true) n 1 (Some 7)) true.
Proof.
  split; [ apply page_acyclic | ].
  split; [ vm_compute; reflexivity | ].
  split; [ vm_compute; reflexivity | ].
  apply (isInsideScope_in_enclosing_scope (Sample.page true) 1 3 7 (page_acyclic true)).
  - exists 10. vm_compute. reflexivity.
  - exists 10. vm_compute. reflexivity.
Defined.

(** X4: the search of [isInsideScope] only goes up.  A true answer means
    the scope is reached from the element by parent links and shadow-root
    host links; so, on an acyclic store, an element that lies strictly
    above the scope (an ancestor, or the host of a shadow tree holding the
    scope) is reported not inside it. *)
Theorem isInsideScope_only_looks_up (d : Dom) (scope e : Node) :
  Acyclic d ->
  (returns (fun n => isInsideScope d n scope (Some e)) true ->
   clos_refl_trans Node (above d) scope e) /\
  (clos_trans Node (above d) e scope ->
   returns (fun n => isInsideScope d n scope (Some e)) false).
Proof.
  intros Hwf.
  assert (Hup : returns (fun n => isInsideScope d n scope (Some e)) true ->
                clos_refl_trans Node (above d) scope e).
  { intros [n Hn].
    destruct (isInsideScope_true_chain d scope n e Hn) as [e' [Hch [k Hk]]].
    apply rt_trans with e'; [ eapply contains_true_above, Hk | ].
    apply hostChain_above, Hch. }
  split; [ exact Hup | ].
  intros Habove.
  destruct (isInsideScope_terminates d scope Hwf (Some e)) as [[|] Hret];
    [ | exact Hret ].
  exfalso. apply (acyclic_irreflexive d Hwf scope).
  apply clos_rt_t with e; [ exact (Hup Hret) | exact Habove ].
Qed.

Lemma isInsideScope_only_looks_up_witness :
  Acyclic (Sample.page true) /\
  clos_trans Node (above (Sample.page true)) 3 5 /\
  isInsideScope (Sample.page true) 10 5 (Some 3) = Some false /\
  returns (fun n => isInsideScope (Sample.page true) n 5 (Some 3)) false.
Proof.
  assert (Habove : clos_trans Node (above (Sample.page true)) 3 5).
  { apply t_trans with 4; apply t_step; [ right | left ]; reflexivity. }
  split; [ apply page_acyclic | ].
  split; [ exact Habove | ].
  split; [ vm_compute; reflexivity | ].
  apply (isInsideScope_only_looks_up (Sample.page true) 5 3 (page_acyclic true)).
  exact Habove.
Defined.

(** X5: every inclusive ancestor across shadow boundaries is a scope the
    element is inside; in particular the element is inside whatever
    [closestCrossShadow] finds for it. *)
Theorem closestCrossShadow_result_is_scope (d : Dom) (e : Node) :
  Acyclic d ->
  (forall a, crossAncestor d e a ->
     returns (fun n => isInsideScope d n a (Some e)) true) /\
  (forall css a,
     returns (fun n => closestCrossShadow d n (Some e) css) (Some a) ->
     returns (fun n => isInsideScope d n a (Some e)) true).
Proof.
  intros Hwf.
  assert (Hcross : forall a, crossAncestor d e a ->
            returns (fun n => isInsideScope d n a (Some e)) true).
  { intros a Ha. destruct (crossAncestor_chain d e a Ha) as [e' [Hch Hc]].
    exact (chain_isInsideScope_true d a Hwf e e' Hch Hc). }
  split; [ exact Hcross | ].
  intros css a [n Hn]. apply Hcross.
  exact (proj1 (closestCrossShadow_result d css n e (Some a) Hn)).
Qed.

Lemma closestCrossShadow_result_is_scope_witness :
  Acyclic (Sample.page false) /\
  nodeType (Sample.page false) 6 = ELEMENT_NODE /\
  closestCrossShadow (Sample.page false) 10 (Some 6) "details,summary" = Some (Some 2) /\
  contains (Sample.page false) 10 2 6 = Some false /\
  returns (fun n => isInsideScope (Sample.page false) n 2 (Some 6)) true.
Proof.
  split; [ apply page_acyclic | ].
  split; [ reflexivity | ].
  split; [ vm_compute; reflexivity | ].
  split; [ vm_compute; reflexivity | ].
  apply (proj2 (closestCrossShadow_result_is_scope (Sample.page false) 6
                  (page_acyclic false)) "details,summary" 2).
  exists 10. vm_compute. reflexivity.
Defined.



Lemma enclosingShadowHost_reaches_top (d : Dom) e :
  Acc (above d) e ->
  exists t, localAncestor d e t /\ parentElement d t = None /\
    returns (fun n => enclosingShadowHost d n e) (parentElementOrShadowHost d t).
Proof.
  induction 1 as [e _ IH].
  destruct (parentElement d e) as [p |] eqn:Hp.
  - destruct (IH p (parentElement_above d _ _ Hp)) as [t [Ht [Htop [n Hn]]]].
    exists t. split; [ eapply localAncestor_step; eassumption | ].
    split; [ exact Htop | ]. exists (S n). simpl. rewrite Hp. exact Hn.
  - exists e. split; [ apply localAncestor_refl | ]. split; [ exact Hp | ].
    exists 1. simpl. rewrite Hp. reflexivity.
Qed.

(** X7: on an acyclic store [enclosingShadowHost] returns.  With [t] the
    topmost element above the element in its own tree, it returns the host
    [h] exactly when the parent node of [t] is a document fragment whose
    host is [h], and it returns none exactly when [t] has no parent node or
    that parent is not a document fragment (a Document) or is a fragment
    without a host. *)
Theorem enclosingShadowHost_is_host_of_tree (d : Dom) (e : Node) :
  Acyclic d ->
  exists t r,
    localAncestor d e t /\ parentElement d t = None /\
    returns (fun n => enclosingShadowHost d n e) r /\
    (forall h, r = Some h <->
       exists pn, parentNode d t = Some pn /\
                  nodeType d pn = DOCUMENT_FRAGMENT_NODE /\ host d pn = Some h) /\
    (r = None <->
       parentNode d t = None \/
       exists pn, parentNode d t = Some pn /\
                  (nodeType d pn <> DOCUMENT_FRAGMENT_NODE \/ host d pn = None)).
Proof.
  intros Hwf.
  destruct (enclosingShadowHost_reaches_top d e (Hwf e)) as [t [Ht [Htop Hret]]].
  exists t, (parentElementOrShadowHost d t).
  split; [ exact Ht | ]. split; [ exact Htop | ]. split; [ exact Hret | ].
  unfold parentElementOrShadowHost. rewrite Htop.
  destruct (parentNode d t) as [pn |].
  - destruct (nodeType d pn =? DOCUMENT_FRAGMENT_NODE) eqn:Hk.
    + apply Nat.eqb_eq in Hk. split.
      * intros h. split.
        -- intros Hh. exists pn. auto.
        -- intros [pn' [[= <-] [_ Hh]]]. exact Hh.
      * split.
        -- intros Hh. right. exists pn. auto.
        -- intros [Hn | [pn' [[= <-] [Hn | Hh]]]];
             [ discriminate | contradiction | exact Hh ].
    + apply Nat.eqb_neq in Hk. split.
      * intros h. split; [ discriminate | ].
        intros [pn' [[= <-] [Hk' _]]]. contradiction.
      * split; [ | reflexivity ]. intros _. right. exists pn. auto.
  - split.
    + intros h. split; [ discriminate | ]. intros [pn' [[=] _]].
    + split; [ auto | reflexivity ].
Qed.

(** X8: on an acyclic store [parentElementOrShadowHost] never returns the
    element itself, nor an element from which the same walk leads back to
    it: a loop that follows it visits no element twice. *)
Theorem parentElementOrShadowHost_strictly_above (d : Dom) (e h : Node) :
  Acyclic d ->
  parentElementOrShadowHost d e = Some h ->
  h <> e /\ ~ crossAncestor d h e.
Proof.
  intros Hwf Hh.
  pose proof (parentElementOrShadowHost_above d e h Hh) as Hup.
  split.
  - intros ->. exact (acyclic_irreflexive d Hwf e Hup).
  - intros Hback. apply (acyclic_irreflexive d Hwf e).
    eapply clos_rt_t; [ exact (crossAncestor_above d h e Hback) | exact Hup ].
Qed.

Lemma parentElementOrShadowHost_strictly_above_witness :
  Acyclic (Sample.page true) /\
  parentElementOrShadowHost (Sample.page true) 5 = Some 3 /\
  3 <> 5 /\ ~ crossAncestor (Sample.page true) 3 5.
Proof.
  split; [ apply page_acyclic | ].
  split; [ reflexivity | ].
  apply (parentElementOrShadowHost_strictly_above (Sample.page true) 5 3
           (page_acyclic true)).
  reflexivity.
Defined.

Lemma rootOf_parentless (d : Dom) e r : rootOf d e r -> parentNode d r = None.
Proof. induction 1; assumption. Qed.

Lemma rootOf_contains (d : Dom) e r :
  rootOf d e r -> returns (fun n => contains d n r e) true.
Proof.
  induction 1 as [n Hn | n p r Hp _ [k Hk]].
  - exists 1. simpl. rewrite Nat.eqb_refl. reflexivity.
  - exists (S k). simpl. destruct (r =? n); [ reflexivity | ].
    rewrite Hp. exact Hk.
Qed.

Lemma enclosingShadowRootOrDocument_some (d : Dom) :
  forall n e r, enclosingShadowRootOrDocument d n e = Some (Some r) ->
    rootOf d e r /\
    (nodeType d r =? DOCUMENT_FRAGMENT_NODE) || (nodeType d r =? DOCUMENT_NODE) = true.
Proof.
  induction n as [| n IH]; simpl; intros e r H; [ discriminate | ].
  destruct (parentNode d e) as [p |] eqn:Hp.
  - destruct (IH p r H) as [Hr Hk]. split; [ | exact Hk ].
    eapply rootOf_up; eassumption.
  - destruct ((nodeType d e =? DOCUMENT_FRAGMENT_NODE) || (nodeType d e =? DOCUMENT_NODE))
      eqn:Hk; [ | discriminate ].
    injection H as <-. split; [ apply rootOf_here, Hp | exact Hk ].
Qed.

(** X9: the root that [enclosingShadowRootOrDocument] returns has no parent
    node, DOM-contains the element, so that the element is inside it as a
    scope, and is its own enclosing root. *)
Theorem enclosingShadowRootOrDocument_encloses (d : Dom) (e r : Node) :
  returns (fun n => enclosingShadowRootOrDocument d n e) (Some r) ->
  parentNode d r = None /\
  returns (fun n => contains d n r e) true /\
  returns (fun n => isInsideScope d n r (Some e)) true /\
  returns (fun n => enclosingShadowRootOrDocument d n r) (Some r).
Proof.
  intros [n Hn].
  destruct (enclosingShadowRootOrDocument_some d n e r Hn) as [Hroot Hk].
  pose proof (rootOf_parentless d e r Hroot) as Hp.
  destruct (rootOf_contains d e r Hroot) as [k Hc].
  split; [ exact Hp | ].
  split; [ exists k; exact Hc | ].
  split.
  - exists (S k). simpl. rewrite Hc. reflexivity.
  - exists 1. simpl. rewrite Hp, Hk. reflexivity.
Qed.

Lemma enclosingShadowRootOrDocument_encloses_witness :
  enclosingShadowRootOrDocument (Sample.page true) 10 7 = Some (Some 4) /\
  parentNode (Sample.page true) 4 = None /\
  returns (fun n => contains (Sample.page true) n 4 7) true /\
  returns (fun n => isInsideScope (Sample.page true) n 4 (Some 7)) true /\
  returns (fun n => enclosingShadowRootOrDocument (Sample.page true) n 4) (Some 4).
Proof.
  split; [ vm_compute; reflexivity | ].
  apply (enclosingShadowRootOrDocument_encloses (Sample.page true) 7 4).
  exists 10. vm_compute. reflexivity.
Defined.

(** ** Further properties of the visibility checks *)

Lemma style_check_true_visible (d : Dom) n e st :
  isElementStyleVisibilityVisible d n e (Some st) = Some true ->
  visibility st = "visible".
Proof.
  unfold isElementStyleVisibilityVisible.
  destruct (hasCheckVisibility d).
  - destruct (negb (checkVisibility d e)); [ discriminate | ].
    intros [= H]. apply String.eqb_eq, H.
  - destruct (closest d n e "details,summary") as [a |]; [ | discriminate ].
    destruct (closedDetailsAbove d e a); [ discriminate | ].
    intros [= H]. apply String.eqb_eq, H.
Qed.

(** X10: [isElementStyleVisibilityVisible] never answers true for a CSS
    visibility other than visible, on the native path and on the fallback
    path alike, for a style that is passed in as for one that it resolves
    itself; and where the native check exists, never against its verdict. *)
Theorem style_check_true_needs_visible_css (d : Dom) (e : Node) (st : CSSStyleDeclaration) :
  (returns (fun n => isElementStyleVisibilityVisible d n e (Some st)) true ->
   visibility st = "visible" /\
   (hasCheckVisibility d = true -> checkVisibility d e = true)) /\
  (getElementComputedStyle d e None = Some st ->
   returns (fun n => isElementStyleVisibilityVisible d n e None) true ->
   visibility st = "visible" /\
   (hasCheckVisibility d = true -> checkVisibility d e = true)).
Proof.
  assert (Hnative : forall n, isElementStyleVisibilityVisible d n e (Some st) = Some true ->
            hasCheckVisibility d = true -> checkVisibility d e = true).
  { intros n H Hcv. unfold isElementStyleVisibilityVisible in H. rewrite Hcv in H.
    destruct (checkVisibility d e); [ reflexivity | discriminate ]. }
  split.
  - intros [n Hn]. split; [ eapply style_check_true_visible, Hn | eapply Hnative, Hn ].
  - intros Hst [n Hn].
    assert (Hn' : isElementStyleVisibilityVisible d n e (Some st) = Some true).
    { unfold isElementStyleVisibilityVisible in *. rewrite Hst in Hn. exact Hn. }
    split; [ eapply style_check_true_visible, Hn' | eapply Hnative, Hn' ].
Qed.

Lemma style_check_true_needs_visible_css_witness :
  getElementComputedStyle (Sample.page true) 1 None = Some (mkStyle "block" "visible") /\
  isElementStyleVisibilityVisible (Sample.page true) 10 1 None = Some true /\
  "visible" = "visible" /\
  (hasCheckVisibility (Sample.page true) = true -> checkVisibility (Sample.page true) 1 = true).
Proof.
  split; [ reflexivity | ].
  split; [ vm_compute; reflexivity | ].
  apply (proj2 (style_check_true_needs_visible_css (Sample.page true) 1
                  (mkStyle "block" "visible")) eq_refl).
  exists 10. vm_compute. reflexivity.
Defined.

(** X11: in the fallback without [checkVisibility], the details workaround
    hides nothing when the nearest details-or-summary found by [closest] is
    the element itself, or is not a DETAILS (a summary), or is open: the
    verdict is then whether the CSS visibility is visible.  A collapsed
    details element itself, and the content of its summary, stay visible by
    style. *)
Theorem details_fallback_spares_self_and_summary
  (d : Dom) (e a : Node) (st : CSSStyleDeclaration) :
  hasCheckVisibility d = false ->
  returns (fun n => closest d n e "details,summary") (Some a) ->
  a = e \/ nodeName d a <> "DETAILS" \/ details_open d a = true ->
  returns (fun n => isElementStyleVisibilityVisible d n e (Some st))
          (visibility st =? "visible")%string.
Proof.
  intros Hcv [n Hn] Hcase. exists n.
  unfold isElementStyleVisibilityVisible. rewrite Hcv, Hn.
  assert (Hcd : closedDetailsAbove d e (Some a) = false).
  { unfold closedDetailsAbove. destruct Hcase as [-> | [Hname | Hopen]].
    - rewrite Nat.eqb_refl. reflexivity.
    - apply String.eqb_neq in Hname. rewrite Hname.
      destruct (negb (a =? e)); reflexivity.
    - rewrite Hopen. destruct (negb (a =? e)), (nodeName d a =? "DETAILS")%string;
        reflexivity. }
  rewrite Hcd. reflexivity.
Qed.

(** On the sample page the collapsed details element [2] is itself visible
    by style, while the host [3] inside it is not. *)
Lemma details_fallback_spares_self_and_summary_witness :
  hasCheckVisibility (Sample.page false) = false /\
  closest (Sample.page false) 10 2 "details,summary" = Some (Some 2) /\
  details_open (Sample.page false) 2 = false /\
  isElementStyleVisibilityVisible (Sample.page false) 10 3 None = Some false /\
  returns (fun n => isElementStyleVisibilityVisible (Sample.page false) n 2
                      (Some (mkStyle "block" "visible"))) true.
Proof.
  split; [ reflexivity | ].
  split; [ vm_compute; reflexivity | ].
  split; [ reflexivity | ].
  split; [ vm_compute; reflexivity | ].
  apply (details_fallback_spares_self_and_summary (Sample.page false) 2 2
           (mkStyle "block" "visible") eq_refl).
  - exists 10. vm_compute. reflexivity.
  - left. reflexivity.
Defined.

(** X12: for an element whose display is not contents, a true verdict of
    [isElementVisible] needs the style check to pass, the CSS visibility to
    be visible and the box height to be positive, and either a positive
    width or display inline; an element of height 0, or hidden by style, is
    never reported visible, whatever its children. *)
Theorem visible_needs_style_check_and_height (d : Dom) (e : Node) (st : CSSStyleDeclaration) :
  getElementComputedStyle d e None = Some st ->
  display st <> "contents" ->
  returns (fun n => isElementVisible d n e) true ->
  returns (fun n => isElementStyleVisibilityVisible d n e (Some st)) true /\
  visibility st = "visible" /\
  (0 < height (getBoundingClientRect d e))%Q /\
  ((0 < width (getBoundingClientRect d e))%Q \/ display st = "inline").
Proof.
  intros Hst Hd [n Hn]. destruct n as [| n]; [ discriminate | ].
  rewrite isElementVisible_unfold, Hst in Hn.
  apply String.eqb_neq in Hd. rewrite Hd in Hn.
  destruct (isElementStyleVisibilityVisible d n e (Some st)) as [[|] |] eqn:Hs;
    try discriminate.
  split; [ exists n; exact Hs | ].
  split; [ eapply style_check_true_visible, Hs | ].
  cbv zeta in Hn.
  destruct (gt0 (width (getBoundingClientRect d e))) eqn:Hw;
    destruct (gt0 (height (getBoundingClientRect d e))) eqn:Hh;
    destruct (display st =? "inline")%string eqn:Hi; simpl in Hn;
    try discriminate;
    try apply gt0_iff in Hw; try apply gt0_iff in Hh;
    try apply String.eqb_eq in Hi;
    (split; [ assumption | (left; assumption) || (right; assumption) ]).
Qed.

Lemma visible_needs_style_check_and_height_witness :
  getElementComputedStyle (Sample.page false) 5 None = Some (mkStyle "inline" "visible") /\
  isElementVisible (Sample.page false) 10 5 = Some true /\
  returns (fun n => isElementStyleVisibilityVisible (Sample.page false) n 5
                      (Some (mkStyle "inline" "visible"))) true /\
  "visible" = "visible" /\
  (0 < height (getBoundingClientRect (Sample.page false) 5%nat))%Q /\
  ((0 < width (getBoundingClientRect (Sample.page false) 5%nat))%Q \/ "inline" = "inline").
Proof.
  split; [ reflexivity | ].
  split; [ vm_compute; reflexivity | ].
  apply (visible_needs_style_check_and_height (Sample.page false) 5
           (mkStyle "inline" "visible") eq_refl).
  - vm_compute. discriminate.
  - exists 10. vm_compute. reflexivity.
Defined.

(** X13: a true verdict of [isElementVisible] is always grounded in the
    subtree: the element or one of its descendants, reached through child
    lists, either has no resolvable style (fail-open), or is a text node
    with a positive range box, or is an element that is not
    [display:contents], has CSS visibility visible and a box of positive
    width and height. *)
Theorem visible_verdict_is_grounded (d : Dom) :
  forall n e, isElementVisible d n e = Some true ->
    exists w, clos_refl_trans Node (childOf d) w e /\
      (getElementComputedStyle d w None = None \/
       (nodeType d w = TEXT_NODE /\
        (0 < width (rangeRect d w))%Q /\ (0 < height (rangeRect d w))%Q) \/
       (exists st, getElementComputedStyle d w None = Some st /\
          display st <> "contents" /\ visibility st = "visible" /\
          (0 < width (getBoundingClientRect d w))%Q /\
          (0 < height (getBoundingClientRect d w))%Q)).
Proof.
  induction n as [| n IH]; intros e H; [ discriminate | ].
  rewrite isElementVisible_unfold in H.
  assert (Hchild : forall c, In c (childNodes d e) ->
            isElementVisible d n c = Some true ->
            exists w, clos_refl_trans Node (childOf d) w e /\
              (getElementComputedStyle d w None = None \/
               (nodeType d w = TEXT_NODE /\
                (0 < width (rangeRect d w))%Q /\ (0 < height (rangeRect d w))%Q) \/
               (exists st, getElementComputedStyle d w None = Some st /\
                  display st <> "contents" /\ visibility st = "visible" /\
                  (0 < width (getBoundingClientRect d w))%Q /\
                  (0 < height (getBoundingClientRect d w))%Q))).
  { intros c Hin Hc. destruct (IH c Hc) as [w [Hw Hg]].
    exists w. split; [ | exact Hg ].
    apply rt_trans with c; [ exact Hw | apply rt_step; exact Hin ]. }
  destruct (getElementComputedStyle d e None) as [st |] eqn:Hst.
  - destruct (display st =? "contents")%string eqn:Hd.
    + apply anyChild_result in H. destruct H as [c [Hin Hc]].
      apply contentsChild_true in Hc. destruct Hc as [[_ Hv] | [Ht Hv]].
      * exact (Hchild c Hin Hv).
      * exists c. split; [ apply rt_step; exact Hin | ].
        right. left. split; [ exact Ht | ].
        unfold isVisibleTextNode in Hv. apply andb_true_iff in Hv.
        rewrite !gt0_iff in Hv. exact Hv.
    + destruct (isElementStyleVisibilityVisible d n e (Some st)) as [[|] |] eqn:Hs;
        try discriminate.
      cbv zeta in H.
      destruct (negb (gt0 (width (getBoundingClientRect d e))
                      && gt0 (height (getBoundingClientRect d e)))
                && (display st =? "inline")%string
                && gt0 (height (getBoundingClientRect d e))).
      * apply anyChild_result in H. destruct H as [c [Hin Hc]].
        apply inlineChild_true in Hc. destruct Hc as [_ [_ Hv]].
        exact (Hchild c Hin Hv).
      * injection H as H. apply andb_true_iff in H. rewrite !gt0_iff in H.
        exists e. split; [ apply rt_refl | ].
        right. right. exists st. split; [ exact Hst | ].
        split; [ apply String.eqb_neq, Hd | ].
        split; [ eapply style_check_true_visible, Hs | exact H ].
  - exists e. split; [ apply rt_refl | ]. left. exact Hst.
Qed.

(** On the sample page the verdict for the [display:contents] element [8]
    rests on its text child. *)
Lemma visible_verdict_is_grounded_witness :
  isElementVisible (Sample.page false) 10 8 = Some true /\
  exists w, clos_refl_trans Node (childOf (Sample.page false)) w 8 /\
    (getElementComputedStyle (Sample.page false) w None = None \/
     (nodeType (Sample.page false) w = TEXT_NODE /\
      (0 < width (rangeRect (Sample.page false) w))%Q /\
      (0 < height (rangeRect (Sample.page false) w))%Q) \/
     (exists st, getElementComputedStyle (Sample.page false) w None = Some st /\
        display st <> "contents" /\ visibility st = "visible" /\
        (0 < width (getBoundingClientRect (Sample.page false) w))%Q /\
        (0 < height (getBoundingClientRect (Sample.page false) w))%Q)).
Proof.
  split; [ vm_compute; reflexivity | ].
  apply (visible_verdict_is_grounded (Sample.page false) 10 8).
  vm_compute. reflexivity.
Defined.

(** X14: for an element without children whose style resolves, the verdict
    is closed: visible exactly when its display is not contents, the style
    check passes and the box has positive width and height.  Neither the
    [display:contents] scan nor the inline quirk can make a childless
    element visible. *)
Theorem childless_element_verdict (d : Dom) (e : Node) (st : CSSStyleDeclaration) (sv : bool) :
  childNodes d e = [] ->
  getElementComputedStyle d e None = Some st ->
  returns (fun n => isElementStyleVisibilityVisible d n e (Some st)) sv ->
  returns (fun n => isElementVisible d n e)
    (negb (display st =? "contents")%string && sv
     && gt0 (width (getBoundingClientRect d e))
     && gt0 (height (getBoundingClientRect d e))).
Proof.
  intros Hkids Hst [n Hn]. exists (S n).
  rewrite isElementVisible_unfold, Hst, Hkids, Hn.
  destruct (display st =? "contents")%string; [ reflexivity | ].
  destruct sv; [ | reflexivity ]. cbv zeta.
  destruct (gt0 (width (getBoundingClientRect d e)));
    destruct (gt0 (height (getBoundingClientRect d e)));
    destruct (display st =? "inline")%string; reflexivity.
Qed.

Lemma childless_element_verdict_witness :
  childNodes (Sample.page true) 10 = [] /\
  getElementComputedStyle (Sample.page true) 10 None = Some (mkStyle "block" "visible") /\
  isElementStyleVisibilityVisible (Sample.page true) 10 10
    (Some (mkStyle "block" "visible")) = Some true /\
  returns (fun n => isElementVisible (Sample.page true) n 10) false.
Proof.
  split; [ reflexivity | ].
  split; [ reflexivity | ].
  split; [ vm_compute; reflexivity | ].
  apply (childless_element_verdict (Sample.page true) 10
           (mkStyle "block" "visible") true eq_refl eq_refl).
  exists 10. vm_compute. reflexivity.
Defined.

(** X15: for an element whose display is not contents and whose box has
    positive width and height, [isElementVisible] returns exactly what the
    style check returns: children are not looked at. *)
Theorem positive_box_verdict_is_style_check (d : Dom) (e : Node) (st : CSSStyleDeclaration) :
  getElementComputedStyle d e None = Some st ->
  display st <> "contents" ->
  (0 < width (getBoundingClientRect d e))%Q ->
  (0 < height (getBoundingClientRect d e))%Q ->
  forall b,
    returns (fun n => isElementVisible d n e) b <->
    returns (fun n => isElementStyleVisibilityVisible d n e (Some st)) b.
Proof.
  intros Hst Hd Hw Hh b.
  apply String.eqb_neq in Hd. apply gt0_iff in Hw, Hh.
  assert (Hstep : forall n sv,
            isElementStyleVisibilityVisible d n e (Some st) = Some sv ->
            isElementVisible d (S n) e = Some sv).
  { intros n sv Hs. rewrite isElementVisible_unfold, Hst, Hd, Hs.
    destruct sv; [ | reflexivity ]. cbv zeta. rewrite Hw, Hh. reflexivity. }
  split.
  - intros [n Hn]. destruct n as [| n]; [ discriminate | ].
    destruct (isElementStyleVisibilityVisible d n e (Some st)) as [sv |] eqn:Hs.
    + rewrite (Hstep n sv Hs) in Hn. injection Hn as <-. exists n. exact Hs.
    + rewrite isElementVisible_unfold, Hst, Hd, Hs in Hn. discriminate.
  - intros [n Hn]. exists (S n). exact (Hstep n b Hn).
Qed.

(** On the sample page with [checkVisibility], the host [3] has a 10 by 10
    box and is not rendered: both verdicts are false. *)
Lemma positive_box_verdict_is_style_check_witness :
  getElementComputedStyle (Sample.page true) 3 None = Some (mkStyle "block" "visible") /\
  isElementStyleVisibilityVisible (Sample.page true) 10 3
    (Some (mkStyle "block" "visible")) = Some false /\
  (returns (fun n => isElementVisible (Sample.page true) n 3) false <->
   returns (fun n => isElementStyleVisibilityVisible (Sample.page true) n 3
                       (Some (mkStyle "block" "visible"))) false).
Proof.
  split; [ reflexivity | ].
  split; [ vm_compute; reflexivity | ].
  apply (positive_box_verdict_is_style_check (Sample.page true) 3
           (mkStyle "block" "visible") eq_refl).
  - vm_compute. discriminate.
  - vm_compute. reflexivity.
  - vm_compute. reflexivity.
Defined.

(** On the sample page the element [6] is in the shadow tree of the host
    [3], and the element [8] is in the document tree, whose topmost element
    is under the Document: the first call returns [3], the second none. *)
Lemma enclosingShadowHost_is_host_of_tree_witness :
  Acyclic (Sample.page true) /\
  enclosingShadowHost (Sample.page true) 10 6 = Some (Some 3) /\
  enclosingShadowHost (Sample.page true) 10 8 = Some None /\
  exists t r,
    localAncestor (Sample.page true) 8 t /\ parentElement (Sample.page true) t = None /\
    returns (fun n => enclosingShadowHost (Sample.page true) n 8) r /\
    (forall h, r = Some h <->
       exists pn, parentNode (Sample.page true) t = Some pn /\
                  nodeType (Sample.page true) pn = DOCUMENT_FRAGMENT_NODE /\
                  host (Sample.page true) pn = Some h) /\
    (r = None <->
       parentNode (Sample.page true) t = None \/
       exists pn, parentNode (Sample.page true) t = Some pn /\
                  (nodeType (Sample.page true) pn <> DOCUMENT_FRAGMENT_NODE \/
                   host (Sample.page true) pn = None)).
Proof.
  split; [ apply page_acyclic | ].
  split; [ vm_compute; reflexivity | ].
  split; [ vm_compute; reflexivity | ].
  apply (enclosingShadowHost_is_host_of_tree (Sample.page true) 8), page_acyclic.
Defined.
